(** * Smart Bookmark Organizer: classification pipeline, job engine,
      duplicate reconciler and taxonomy reconciliation

    A shallow embedding of the service worker (background script) and of
    the classification service (ai_service.js), and the properties of the
    specification checked against it.

    Conventions of the embedding.
    - JavaScript strings are [string]s of bytes; case folding, trimming and
      character counts are those of the ASCII range.
    - A JavaScript object used as a dictionary is a finite map ([gmap]) when
      only lookups matter, and an association list in insertion order when
      the code enumerates it ([Object.keys], [Object.entries], [Map]
      iteration).  Keys are taken as plain data: properties inherited from
      [Object.prototype] are not part of the model.
    - A value that may be [undefined] or [null] is an [option]; JavaScript
      truthiness of a string is "present and non-empty".
    - Platform services that the code only calls (network fetch, the [URL]
      class, the regular-expression engine on HTML, the remote chat
      endpoint, failures reported by the bookmarks and storage back ends)
      are fields of a [Platform] record; every definition that uses them is
      a function of it.
    - Asynchronous code is sequential state passing over a [World]; what the
      code writes is also appended to an effect log. *)

From stdpp Require Import base option list gmap strings.
From Stdlib Require Import ZArith Lia Ascii.

Local Set Warnings "-register-all".


(** ** String primitives *)

Module Js.

Definition lowerChar (c : ascii) : ascii :=
  let n := nat_of_ascii c in
  if (65 <=? n)%nat && (n <=? 90)%nat then ascii_of_nat (n + 32) else c.

Definition upperChar (c : ascii) : ascii :=
  let n := nat_of_ascii c in
  if (97 <=? n)%nat && (n <=? 122)%nat then ascii_of_nat (n - 32) else c.

(** [s.toLowerCase()] *)
Fixpoint toLowerCase (s : string) : string :=
  match s with
  | EmptyString => EmptyString
  | String c r => String (lowerChar c) (toLowerCase r)
  end.

Fixpoint trimStart (s : string) : string :=
  match s with
  | EmptyString => EmptyString
  | String c r => if Ascii.is_space c then trimStart r else s
  end.

(** [trimEnd] keeps a character when it is not a space or something that is
    kept follows it. *)
Fixpoint trimEnd (s : string) : string :=
  match s with
  | EmptyString => EmptyString
  | String c r =>
      match trimEnd r with
      | EmptyString => if Ascii.is_space c then EmptyString else String c EmptyString
      | r' => String c r'
      end
  end.

(** [s.trim()] *)
Definition trim (s : string) : string := trimEnd (trimStart s).

(** [s.startsWith(p)] *)
Fixpoint startsWith (p s : string) : bool :=
  match p, s with
  | EmptyString, _ => true
  | String a p', String b s' => if ascii_dec a b then startsWith p' s' else false
  | String _ _, EmptyString => false
  end.

(** [s.includes(w)] *)
Fixpoint includes (s w : string) : bool :=
  startsWith w s ||
  match s with
  | EmptyString => false
  | String _ r => includes r w
  end.

(** [s.slice(0, n)] *)
Fixpoint slice0 (n : N) (s : string) : string :=
  match s with
  | EmptyString => EmptyString
  | String c r => if (n =? 0)%N then EmptyString else String c (slice0 (N.pred n) r)
  end.

(** [s.slice(n)] *)
Fixpoint drop (n : nat) (s : string) : string :=
  match n, s with
  | O, _ => s
  | _, EmptyString => EmptyString
  | S k, String _ r => drop k r
  end.

(** [parts.join(sep)] *)
Fixpoint join (sep : string) (parts : list string) : string :=
  match parts with
  | [] => EmptyString
  | [p] => p
  | p :: rest => p +:+ sep +:+ join sep rest
  end.

(** [s.split(/[...]/)] for a one-character class given as a predicate. *)
Fixpoint splitGo (isSep : ascii -> bool) (cur : string) (s : string) : list string :=
  match s with
  | EmptyString => [String.rev cur]
  | String c r =>
      if isSep c then String.rev cur :: splitGo isSep EmptyString r
      else splitGo isSep (String c cur) r
  end.
Definition splitChars (isSep : ascii -> bool) (s : string) : list string :=
  splitGo isSep EmptyString s.

(** [s.split(/\.\s+/)]: a separator is a full stop followed by the longest
    run of at least one white-space character. *)
Fixpoint splitSentGo (fuel : nat) (cur : string) (s : string) : list string :=
  match fuel with
  | O => [String.rev cur +:+ s]
  | S fuel' =>
      match s with
      | EmptyString => [String.rev cur]
      | String c r =>
          if ascii_dec c "."%char then
            match r with
            | String d _ =>
                if Ascii.is_space d
                then String.rev cur :: splitSentGo fuel' EmptyString (trimStart r)
                else splitSentGo fuel' (String c cur) r
            | EmptyString => splitSentGo fuel' (String c cur) r
            end
          else splitSentGo fuel' (String c cur) r
      end
  end.
Definition splitSentences (s : string) : list string :=
  splitSentGo (S (String.length s)) EmptyString s.

(** [w.charAt(0).toUpperCase() + w.slice(1)] *)
Definition capitalize (w : string) : string :=
  match w with
  | EmptyString => EmptyString
  | String c r => String (upperChar c) r
  end.

(** Truthiness of a possibly absent string, and [x || ''].  *)
Definition truthy (o : option string) : bool :=
  match o with
  | Some (String _ _) => true
  | _ => false
  end.
Definition orEmpty (o : option string) : string := default EmptyString o.

(** [a || b] on strings: the first when it is non-empty. *)
Definition orElse (a b : string) : string :=
  match a with
  | EmptyString => b
  | _ => a
  end.

End Js.

(** ** Classification tables (ai_service.js) *)

(** A JavaScript object literal read by key: the first entry with the key. *)
Fixpoint assocGet {A} (k : string) (l : list (string * A)) : option A :=
  match l with
  | [] => None
  | (k', v) :: r => if decide (k' = k) then Some v else assocGet k r
  end.

Definition DOMAIN_CATEGORY_MAP : list (string * string) :=
  [ ("cloudflare.com", "devops"); ("dash.cloudflare.com", "devops");
    ("aws.amazon.com", "cloud"); ("console.aws.amazon.com", "cloud");
    ("amazonaws.com", "cloud"); ("oraclecloud.com", "cloud");
    ("octopus.do", "uxui"); ("figma.com", "uxui");
    ("ahrefs.com", "seo"); ("gtmetrix.com", "qa");
    ("pagespeed.web.dev", "qa"); ("campaignmonitor.com", "docs");
    ("docs.google.com", "docs"); ("google.com", "docs");
    ("youtube.com", "media"); ("ssyoutube.com", "media");
    ("codepen.io", "frontend"); ("cssgradient.io", "frontend");
    ("vercel.com", "frontend"); ("github.com", "programming");
    ("gitlab.com", "programming"); ("stackoverflow.com", "programming");
    ("mailtrap.io", "devops"); ("grafana.com", "devops");
    ("screamingfrog.co.uk", "seo");
    ("totalworkplace.sharepoint.com", "docs"); ("office.com", "docs");
    ("sharepoint.com", "docs"); ("onedrive.live.com", "docs");
    ("git-codecommit.amazonaws.com", "cloud");
    ("codecommit.amazonaws.com", "cloud") ].

Definition GENERAL_CATEGORY_MAP : list (string * string) :=
  [ ("devops", "developer/devops"); ("cloud", "developer/cloud");
    ("frontend", "developer/frontend"); ("backend", "developer/backend");
    ("cms", "workspaces/cms"); ("programming", "developer/programming");
    ("online-tools", "tools/free-tools"); ("uxui", "tools/design-tools");
    ("seo", "tools/seo-tools"); ("qa", "developer/qa");
    ("media", "media"); ("docs", "docs"); ("ecommerce", "shopping");
    ("education", "learning"); ("other", "other");
    ("workspaces/login-pages", "workspaces/login-pages") ].

(** [GENERAL_CATEGORY_MAP[cat] || cat] *)
Definition mapToGeneral (cat : string) : string :=
  match assocGet cat GENERAL_CATEGORY_MAP with
  | Some g => Js.orElse g cat
  | None => cat
  end.

(** The path hints.  Every pattern of the table is an alternation of
    literals (a leading [\/(a|b)] distributes the slash), tested with
    [rx.test] on a string that is already lower case, so a pattern is the
    list of its literals and the test is "contains one of them". *)
Definition PATH_HINTS : list (list string * string) :=
  [ (["/cp/dashboard"; "/wp-admin"; "cpsess"; ":2083"; "/admin"], "cms");
    (["/login"; "signin"; "sign-in"; "auth"], "workspaces/login-pages");
    (["/design"; "/proto"; "/node-id"; "/canvas"; "/drawio"], "uxui");
    (["/seo"; "/sitemap"; "/lighthouse"; "/analysis"], "seo");
    (["/speed"; "/load"; "/perf"; "/gtmetrix"], "qa");
    (["/convert"; "/resize"; "/encode"; "/decode"], "online-tools");
    (["/media"; "/video"; "/download"; "/mp4"], "media");
    (["/docs"; "/document"; "/sheet"; "/slides"], "docs");
    (["/faq"; "/guide"; "/tutorial"; "/help"; "/knowledge"], "docs");
    (["/graphql"; "/api"; "/rest"], "programming");
    (["/shop"; "/store"; "/cart"; "/product"; "/products"; "/checkout";
      "/ecommerce"], "ecommerce");
    (["/course"; "/courses"; "/college"; "/university"; "/school";
      "/training"; "/learn"; "/education"], "education") ].

Definition rxTest (alternatives : list string) (s : string) : bool :=
  existsb (Js.includes s) alternatives.

Definition KEYWORDS : list (string * list string) :=
  [ ("devops", ["cloudflare"; "grafana"; "mailtrap"; "cicd"; "pipeline";
       "monitoring"; "kubernetes"; "helm"; "prometheus"; "ansible"; "nginx";
       "ingress"; "dns"; "waf"; "ssl"; "tls"; "cert"]);
    ("cloud", ["aws"; "s3"; "ec2"; "rds"; "route 53"; "oci"; "oracle cloud";
       "gcp"; "azure"; "iam"; "vpc"; "compute"]);
    ("frontend", ["react"; "next"; "vue"; "angular"; "css"; "tailwind";
       "sass"; "vite"; "webpack"; "storybook"; "component"; "ui"; "codepen";
       "gradient"; "cssgradient"; "vercel"]);
    ("uxui", ["figma"; "wireframe"; "prototype"; "ux"; "ui"; "design system";
       "octopus"; "draw.io"; "diagrams"; "octopus.do"; "node-id"]);
    ("seo", ["ahrefs"; "semrush"; "sitemap"; "backlink"; "schema"; "gsc";
       "gigalist"; "seo"]);
    ("qa", ["gtmetrix"; "lighthouse"; "browserstack"; "lambda test";
       "pentest"; "performance"; "testing"; "qa"; "qa tools"]);
    ("docs", ["docs"; "document"; "slides"; "sheet"; "confluence"; "wiki";
       "guide"; "checklist"; "documentation"]);
    ("media", ["video"; "mp4"; "youtube"; "downloader"; "suno"; "pixlr";
       "shots"; "mockup"; "media"; "image"; "png"; "jpg"]);
    ("cms", ["cpanel"; "wp-admin"; "statamic"; "drupal"; "content"; "cms";
       "collection"; "entries"; "admin"; "cp/dashboard"]);
    ("programming", ["github"; "gitlab"; "code"; "repo"; "er diagram";
       "drawio"; "query"; "api"; "swagger"; "graphql"; "postman"; "json";
       "csv"]);
    ("online-tools", ["converter"; "encode"; "decode"; "resize"; "favicon";
       "uuid"; "formatter"; "dns"; "whatsmydns"; "tool"; "online"]);
    ("ecommerce", ["shop"; "store"; "cart"; "checkout"; "ecommerce";
       "shopping"; "product"; "seller"; "buyer"; "order"; "price";
       "customer"]);
    ("education", ["education"; "college"; "university"; "school"; "course";
       "courses"; "learning"; "training"; "academy"; "class"; "students"]) ].

(** The inner loop of [scoreKeywords]: [if (bag.includes(w)) s++]. *)
Definition keywordScore (bag : string) (words : list string) : nat :=
  fold_left (fun s w => if Js.includes bag w then S s else s) words 0.

(** [scoreKeywords(bag)]: one entry per category, in the order of the table. *)
Definition scoreKeywords (bag : string) : list (string * nat) :=
  map (fun '(cat, words) => (cat, keywordScore bag words)) KEYWORDS.

(** The selection loop of the classifier over [Object.entries(scores)]:
    [if (score > bestScore) { bestScore = score; bestCat = cat; }]. *)
Definition bestStep (best : string * nat) (entry : string * nat) : string * nat :=
  if (best.2 <? entry.2)%nat then entry else best.

Definition pickBest (scores : list (string * nat)) : string * nat :=
  fold_left bestStep scores (EmptyString, 0).

(** ** Data model *)

Definition BookmarkId := N.

(** One row of [bookmarkMeta].  [None] is an absent ([undefined]) or
    [null] property; the flags are read through [!!]. *)
Record BookmarkMeta := mkMeta {
  primary : option string;
  description : option string;
  manual : bool;
  categories : option (list string);
  tags : option (list string);
  organized : bool;
  organizedAt : option Z;
  clonedFrom : option BookmarkId;
  organizeFailed : bool;
  lastError : option string;
  needsReclassification : bool
}.

(** [{}] *)
Definition emptyMeta : BookmarkMeta :=
  mkMeta None None false None None false None None false None false.

(** One entry of [userCategories]. *)
Record CategoryDef := mkCat {
  cat_id : string;
  cat_name : string;
  cat_emoji : string;
  cat_parent : option string;
  cat_order : nat
}.

Inductive Status := Idle | Running | Done | Failed.

Global Instance Status_eq_dec : EqDecision Status.
Proof. solve_decision. Defined.

(** [orgState] *)
Record OrgState := mkOrgState {
  status : Status;
  total : nat;
  done : nat;
  startedAt : option Z;
  lastTitle : option string;
  provider : string;
  completedAt : option Z;
  error : option string
}.

(** The argument of [broadcastProgress]. *)
Record Progress := mkProgress {
  p_status : Status;
  p_done : nat;
  p_total : nat;
  p_message : option string;
  p_error : option string
}.

(** [organizationStats]; [categories] is only read by key and counted. *)
Record Stats := mkStats {
  totalBookmarks : nat;
  categoriesCreated : nat;
  stat_categories : gmap string nat;
  favorites : nat;
  recent : nat
}.

(** ** The bookmark tree (chrome.bookmarks) *)

(** A [BookmarkTreeNode]: a folder has no url.  [parentId] is not stored:
    it is the id of the node that holds this one in its children. *)
Inductive Node :=
| mkNode (id : BookmarkId) (title : string) (url : option string)
         (dateAdded : option Z) (children : list Node).

Definition node_id (n : Node) : BookmarkId := match n with mkNode i _ _ _ _ => i end.
Definition node_title (n : Node) : string := match n with mkNode _ t _ _ _ => t end.
Definition node_url (n : Node) : option string := match n with mkNode _ _ u _ _ => u end.
Definition node_dateAdded (n : Node) : option Z := match n with mkNode _ _ _ d _ => d end.
Definition node_children (n : Node) : list Node := match n with mkNode _ _ _ _ c => c end.

(** The store: the forest returned by [getTree], the id that the next
    [create] hands out, and the folder that receives a node created
    without a [parentId]. *)
Record BookmarkStore := mkStore {
  roots : list Node;
  nextId : BookmarkId;
  defaultParent : BookmarkId
}.

(** The element of the flat list built by [getAllBookmarksFlat]. *)
Record Bookmark := mkBookmark {
  bm_id : BookmarkId;
  bm_title : string;
  bm_url : string;
  bm_parentId : option BookmarkId;
  bm_dateAdded : option Z;
  bm_path : list string
}.

Module Tree.

(** Nodes of a forest in document order, each with its parent. *)
Fixpoint nodesOf (parent : option BookmarkId) (n : Node) : list (option BookmarkId * Node) :=
  match n with
  | mkNode i _ _ _ cs =>
      (parent, n) ::
      (fix go (l : list Node) : list (option BookmarkId * Node) :=
         match l with
         | [] => []
         | c :: r => nodesOf (Some i) c ++ go r
         end) cs
  end.

Definition allNodes (roots : list Node) : list (option BookmarkId * Node) :=
  flat_map (nodesOf None) roots.

Definition find (i : BookmarkId) (roots : list Node) : option Node :=
  snd <$> List.find (fun pn => bool_decide (node_id pn.2 = i)) (allNodes roots).

(** [chrome.bookmarks.getChildren(id, cb)] with [c || []] applied. *)
Definition getChildren (i : BookmarkId) (roots : list Node) : list Node :=
  match find i roots with
  | Some n => node_children n
  | None => []
  end.

(** Detach the node [i] (and what it holds) from a tree. *)
Fixpoint removeFrom (i : BookmarkId) (n : Node) : option Node :=
  match n with
  | mkNode j t u d cs =>
      if decide (j = i) then None
      else Some (mkNode j t u d
        ((fix go (l : list Node) : list Node :=
            match l with
            | [] => []
            | c :: r =>
                match removeFrom i c with
                | Some c' => c' :: go r
                | None => go r
                end
            end) cs))
  end.

Definition remove (i : BookmarkId) (roots : list Node) : list Node :=
  omap (removeFrom i) roots.

(** Append [x] to the children of the folder [p]. *)
Fixpoint insertUnder (p : BookmarkId) (x : Node) (n : Node) : Node :=
  match n with
  | mkNode j t u d cs =>
      let cs' := (fix go (l : list Node) : list Node :=
                    match l with
                    | [] => []
                    | c :: r => insertUnder p x c :: go r
                    end) cs in
      if decide (j = p) then mkNode j t u d (cs' ++ [x]) else mkNode j t u d cs'
  end.

Definition insert (p : BookmarkId) (x : Node) (roots : list Node) : list Node :=
  map (insertUnder p x) roots.

End Tree.

(** ** Platform services *)

(** What [await fetch(url)] followed by [await res.text()] can do. *)
Inductive FetchOutcome :=
| FetchTimeout
| FetchNetworkError
| FetchResponse (contentType body : string).

(** The parts of a parsed [URL] that the code reads. *)
Record URL := mkURL {
  protocol : string;
  username : string;
  password : string;
  hostname : string;
  port : string;
  pathname : string;
  searchParams : list (string * string);
  hash : string
}.

(** What the chat-completion exchange of the classifier can do: anything
    that throws inside its [try] block, or the object parsed from the
    reply ([{}] when the reply text is not JSON). *)
Inductive ChatReply :=
| ChatThrows
| ChatParsed (category description : option string).

Record ChatRequest := mkChatRequest {
  rq_key : string;
  rq_url : string;
  rq_host : string;
  rq_title : string;
  rq_candidates : list string;
  rq_contentSample : string
}.

(** The regular expressions that the text extractor runs over HTML, all
    case-insensitive; the engine that runs them is the platform's.
    - [RxTitle]: a title start tag, capturing the text up to the next tag;
    - [RxMetaDescription]: a meta tag with name description, capturing the
      value of its content attribute;
    - [RxOgDescription]: a meta tag with property og:description,
      capturing the value of its content attribute;
    - [RxMetaContent] (global): any meta tag, capturing the value of its
      content attribute;
    - [RxHeading] (global): an h1, h2 or h3 start tag (group 1), capturing
      the text up to the next tag (group 2). *)
Inductive HtmlPattern :=
| RxTitle
| RxMetaDescription
| RxOgDescription
| RxMetaContent
| RxHeading.

Record Platform := mkPlatform {
  (** [fetch(url, {signal, redirect})] and the read of the body *)
  fetch : string -> FetchOutcome;
  (** [new URL(s)]; [None] when the constructor throws *)
  URL_parse : string -> option URL;
  (** [/pattern/i.exec(s)]: the match array of the first match *)
  rxExec : HtmlPattern -> string -> option (list string);
  (** the match arrays of the successive [exec] calls of a [/gi] pattern *)
  rxExecAll : HtmlPattern -> string -> list (list string);
  (** the POST to the chat endpoint and the parse of its reply *)
  chat : ChatRequest -> ChatReply;
  (** [Date.now()] *)
  now : Z;
  (** the error, if any, of making the folder of a category *)
  folderError : string -> option string;
  (** [chrome.runtime.lastError] of creating the clone of a bookmark *)
  createError : BookmarkId -> option string;
  (** the error, if any, of the write of [bookmarkMeta] and
      [userCategories] that follows the loop *)
  saveMetaError : option string;
  (** [chrome.runtime.lastError] of removing a bookmark *)
  removeError : BookmarkId -> option string
}.

(** ** Completions: a value or a thrown error *)

Inductive Completion (A : Type) :=
| Normal (a : A)
| Throw (msg : string).
Arguments Normal {A} a.
Arguments Throw {A} msg.

Definition cbind {A B} (c : Completion A) (k : A -> Completion B) : Completion B :=
  match c with
  | Normal a => k a
  | Throw m => Throw m
  end.

(** [try { body } catch (e) { handler(e) }] *)
Definition tryCatch {A} (body : Completion A) (handler : string -> Completion A)
  : Completion A :=
  match body with
  | Normal a => Normal a
  | Throw m => handler m
  end.

Notation "x <-- c ;; k" := (cbind c (fun x => k))
  (at level 100, c at next level, right associativity).

(** ** Storage (chrome.storage.local) and the world *)

Record Storage := mkStorage {
  organization_stats : option Stats;
  org_state : option OrgState;
  organize_progress : option Progress;
  bookmarkMeta : gmap BookmarkId BookmarkMeta;
  userCategories : list (string * CategoryDef);
  organize_strategy : option string;
  classification_mode : option string;
  openai_api_key : option string
}.

(** A write that the service worker makes. *)
Inductive Effect :=
| ESaveOrgState (s : OrgState)
| EBroadcast (p : Progress)
| ESaveMeta (meta : gmap BookmarkId BookmarkMeta)
| ESaveMetaAndCategories (meta : gmap BookmarkId BookmarkMeta)
                         (cats : list (string * CategoryDef))
| ESaveCategories (cats : list (string * CategoryDef))
| ESaveStats (s : Stats)
| ERemoveProgress
| EBookmarkCreate (parent : BookmarkId) (title : string) (url : option string)
                  (id : BookmarkId)
| EBookmarkMove (id parent : BookmarkId)
| EBookmarkRemove (id : BookmarkId)
| EBookmarkRemoveTree (id : BookmarkId).

(** The globals of the service worker, the two stores and the log. *)
Record World := mkWorld {
  orgState : OrgState;
  organizationStats : Stats;
  aiMode : string;
  storage : Storage;
  bookmarks : BookmarkStore;
  effects : list Effect
}.

Definition setOrgState (o : OrgState) (w : World) : World :=
  mkWorld o (organizationStats w) (aiMode w) (storage w) (bookmarks w) (effects w).
Definition setStats (s : Stats) (w : World) : World :=
  mkWorld (orgState w) s (aiMode w) (storage w) (bookmarks w) (effects w).
Definition setAiMode (m : string) (w : World) : World :=
  mkWorld (orgState w) (organizationStats w) m (storage w) (bookmarks w) (effects w).
Definition setStorage (s : Storage) (w : World) : World :=
  mkWorld (orgState w) (organizationStats w) (aiMode w) s (bookmarks w) (effects w).
Definition setBookmarks (b : BookmarkStore) (w : World) : World :=
  mkWorld (orgState w) (organizationStats w) (aiMode w) (storage w) b (effects w).
Definition emit (e : Effect) (w : World) : World :=
  mkWorld (orgState w) (organizationStats w) (aiMode w) (storage w) (bookmarks w)
          (effects w ++ [e]).

(** [broadcastProgress(state)]: persist under [organize_progress] and send
    the runtime message (a missing listener is ignored). *)
Definition broadcastProgress (p : Progress) (w : World) : World :=
  let s := storage w in
  emit (EBroadcast p)
    (setStorage (mkStorage (organization_stats s) (org_state s) (Some p)
                   (bookmarkMeta s) (userCategories s) (organize_strategy s)
                   (classification_mode s) (openai_api_key s)) w).

(** [saveOrgState()] *)
Definition saveOrgState (w : World) : World :=
  let s := storage w in
  emit (ESaveOrgState (orgState w))
    (setStorage (mkStorage (organization_stats s) (Some (orgState w))
                   (organize_progress s) (bookmarkMeta s) (userCategories s)
                   (organize_strategy s) (classification_mode s)
                   (openai_api_key s)) w).

(** [saveStats()] *)
Definition saveStats (w : World) : World :=
  let s := storage w in
  emit (ESaveStats (organizationStats w))
    (setStorage (mkStorage (Some (organizationStats w)) (org_state s)
                   (organize_progress s) (bookmarkMeta s) (userCategories s)
                   (organize_strategy s) (classification_mode s)
                   (openai_api_key s)) w).

(** [chrome.storage.local.set({ bookmarkMeta: meta })] *)
Definition saveMeta (meta : gmap BookmarkId BookmarkMeta) (w : World) : World :=
  let s := storage w in
  emit (ESaveMeta meta)
    (setStorage (mkStorage (organization_stats s) (org_state s)
                   (organize_progress s) meta (userCategories s)
                   (organize_strategy s) (classification_mode s)
                   (openai_api_key s)) w).


(** [chrome.storage.local.set({ bookmarkMeta: meta, userCategories })] *)
Definition saveMetaAndCategories (meta : gmap BookmarkId BookmarkMeta)
    (cats : list (string * CategoryDef)) (w : World) : World :=
  let s := storage w in
  emit (ESaveMetaAndCategories meta cats)
    (setStorage (mkStorage (organization_stats s) (org_state s)
                   (organize_progress s) meta cats
                   (organize_strategy s) (classification_mode s)
                   (openai_api_key s)) w).

(** ** The classifier (ai_service.js) *)

Record ClassResult := mkResult {
  res_category : string;
  res_description : string;
  res_source : string
}.

Section Classifier.

Context (P : Platform).

(** [fetchPageContent(url, timeoutMs = 3500, bytes = 150000)].  An abort
    by the timer and a network failure both reject the fetch. *)
Definition fetchPageContent (url : string) : Completion string :=
  tryCatch
    (match fetch P url with
     | FetchResponse _ body => Normal (Js.slice0 150000 body)
     | FetchTimeout => Throw "AbortError"
     | FetchNetworkError => Throw "TypeError"
     end)
    (fun _ => Normal EmptyString).

(** The capture group [i] of a match array. *)
Definition group (i : nat) (m : list string) : string := nth i m EmptyString.

(** [extractTitle(html)] *)
Definition extractTitle (html : string) : string :=
  match rxExec P RxTitle html with
  | Some m => Js.trim (group 1 m)
  | None => EmptyString
  end.

(** [extractMetaDesc(html)] *)
Definition extractMetaDesc (html : string) : string :=
  match rxExec P RxMetaDescription html with
  | Some m1 => Js.trim (group 1 m1)
  | None =>
      match rxExec P RxOgDescription html with
      | Some m2 => Js.trim (group 1 m2)
      | None => EmptyString
      end
  end.

(** [textBagFromHtml(html)] *)
Definition textBagFromHtml (html : string) : string :=
  let title := extractTitle html in
  let metas := map (group 1) (rxExecAll P RxMetaContent html) in
  let headings := map (group 2) (rxExecAll P RxHeading html) in
  Js.toLowerCase (Js.join " " [title; Js.join " " metas; Js.join " " headings]).

(** [AIService.init()], as far as the service worker reads it back:
    [this.mode = data.classification_mode || 'local']. *)
Definition AIService_init (w : World) : World :=
  setAiMode (Js.orElse (Js.orEmpty (classification_mode (storage w))) "local") w.

(** [new URL(url)] *)
Definition newURL (url : string) : Completion URL :=
  match URL_parse P url with
  | Some u => Normal u
  | None => Throw "TypeError: Invalid URL"
  end.

(** [u.search]: the serialized query, empty when there is none. *)
Definition search (u : URL) : string :=
  match searchParams u with
  | [] => EmptyString
  | ps => "?" +:+ Js.join "&" (map (fun kv => kv.1 +:+ "=" +:+ kv.2) ps)
  end.

(** [host.replace(/^www\./, '')] *)
Definition stripWww (host : string) : string :=
  match host with
  | String "w" (String "w" (String "w" (String "." r))) => r
  | _ => host
  end.

(** Step 1, the manual override:
    [id && meta[id] && meta[id].manual && meta[id].primary]. *)
Definition manualOverride (id : option BookmarkId)
    (meta : gmap BookmarkId BookmarkMeta) : option ClassResult :=
  i ← id;
  m ← meta !! i;
  if manual m && Js.truthy (primary m)
  then Some (mkResult (Js.orEmpty (primary m)) (Js.orEmpty (description m)) "manual")
  else None.

(** The first path hint whose pattern matches. *)
Definition pathHint (pathname : string) : option string :=
  snd <$> List.find (fun h => rxTest h.1 pathname) PATH_HINTS.

(** The chat-completion step, inside its [try]. *)
Definition openaiStep (key url host extractedTitle : string)
    (candidates : list string) (html metaDesc : string) : Completion ClassResult :=
  let contentSample := Js.slice0 20000 (textBagFromHtml html) in
  match chat P (mkChatRequest key url host extractedTitle candidates contentSample) with
  | ChatThrows => Throw "chat"
  | ChatParsed c d =>
      let chosen := Js.trim (Js.orEmpty c) in
      let description := Js.trim (Js.orElse (Js.orEmpty d) metaDesc) in
      let chosen := Js.orElse chosen "other" in
      Normal (mkResult (mapToGeneral chosen) description "openai")
  end.

(** The local heuristics and the default that ends the classifier. *)
Definition localHeuristics (bag metaDesc summary : string) : ClassResult :=
  let '(bestCat, bestScore) := pickBest (scoreKeywords bag) in
  if (0 <? bestScore)%nat
  then mkResult (mapToGeneral bestCat) (Js.orElse metaDesc summary) "local"
  else mkResult (mapToGeneral "other") (Js.orElse metaDesc summary) "default".

(** [AIService.categorizeBookmarkDetailed({ id, title, url })] *)
Definition categorizeBookmarkDetailed (id : option BookmarkId) (title url : string)
    (w : World) : World * Completion ClassResult :=
  let w := AIService_init w in
  let cats := userCategories (storage w) in
  let meta := bookmarkMeta (storage w) in
  let openaiKey := openai_api_key (storage w) in
  (w,
   match manualOverride id meta with
   | Some r => Normal r
   | None =>
       hp <-- tryCatch
                (u <-- newURL url ;;
                 Normal (stripWww (Js.toLowerCase (hostname u)),
                         Js.toLowerCase (pathname u +:+ search u)))
                (fun _ => Normal (EmptyString, EmptyString)) ;;
       let '(host, pathname) := hp in
       html <-- fetchPageContent url ;;
       let extractedTitle := Js.orElse (Js.orElse (extractTitle html) title) host in
       let metaDesc := extractMetaDesc html in
       let bagText := textBagFromHtml html in
       let summarySentences := Js.splitSentences bagText in
       let summary :=
         Js.slice0 240 (Js.trim (Js.join ". " (firstn 2 summarySentences))) in
       match assocGet host DOMAIN_CATEGORY_MAP with
       | Some d =>
           Normal (mkResult (mapToGeneral d) (Js.orElse metaDesc summary) "domain")
       | None =>
           match pathHint pathname with
           | Some hintCat =>
               Normal (mkResult (mapToGeneral hintCat) (Js.orElse metaDesc summary) "path")
           | None =>
               let heuristics := Normal (localHeuristics bagText metaDesc summary) in
               if Js.truthy openaiKey
               then tryCatch
                      (openaiStep (Js.orEmpty openaiKey) url host extractedTitle
                                  (map fst cats) html metaDesc)
                      (fun _ => heuristics)
               else heuristics
           end
       end
   end).

End Classifier.

(** ** Helpers of the service worker (background script) *)

Definition SMART_PARENT : string := "🧠 Smart Bookmarks".

Section Background.

Context (P : Platform).

(** [!node.url] *)
Definition isFolder (n : Node) : bool := negb (Js.truthy (node_url n)).

(** [chrome.bookmarks.create({ parentId, title, url }, cb)]: the new node
    gets the next id and goes last under its parent. *)
Definition createNode (parent : option BookmarkId) (title : string)
    (url : option string) (w : World) : BookmarkId * World :=
  let b := bookmarks w in
  let p := default (defaultParent b) parent in
  let i := nextId b in
  let n := mkNode i title url (Some (now P)) [] in
  (i, emit (EBookmarkCreate p title url i)
        (setBookmarks (mkStore (Tree.insert p n (roots b)) (N.succ i) (defaultParent b)) w)).

(** [getSmartParentId()] *)
Definition getSmartParentId (w : World) : BookmarkId * World :=
  let results := map snd (Tree.allNodes (roots (bookmarks w))) in
  match List.find (fun r => isFolder r && bool_decide (node_title r = SMART_PARENT)) results with
  | Some folder => (node_id folder, w)
  | None => createNode None SMART_PARENT None w
  end.

(** [getOrCreateChildFolder(parentId, name)] *)
Definition getOrCreateChildFolder (parentId : BookmarkId) (name : string)
    (w : World) : BookmarkId * World :=
  let children := Tree.getChildren parentId (roots (bookmarks w)) in
  match List.find (fun c => isFolder c && bool_decide (node_title c = name)) children with
  | Some existing => (node_id existing, w)
  | None => createNode (Some parentId) name None w
  end.

(** [/^https?:/i.test(url)] *)
Definition isHttpUrl (url : string) : bool :=
  let l := Js.toLowerCase url in
  Js.startsWith "http:" l || Js.startsWith "https:" l.

(** The [walk] of [getAllBookmarksFlat]. *)
Fixpoint walk (parent : option BookmarkId) (path : list string) (n : Node)
  : list Bookmark :=
  match n with
  | mkNode i t u d cs =>
      (match u with
       | Some url =>
           if Js.truthy u && isHttpUrl url
           then [mkBookmark i t url parent d path]
           else []
       | None => []
       end) ++
      (fix go (l : list Node) : list Bookmark :=
         match l with
         | [] => []
         | c :: r =>
             walk (Some i) (match t with EmptyString => path | _ => path ++ [t] end) c
             ++ go r
         end) cs
  end.

(** [getAllBookmarksFlat()] *)
Definition getAllBookmarksFlat (w : World) : list Bookmark :=
  flat_map (walk None []) (roots (bookmarks w)).

(** [`${cat.emoji ? cat.emoji + ' ' : ''}${cat.name}`] *)
Definition folderNameOf (emoji name : string) : string :=
  match emoji with
  | EmptyString => name
  | _ => emoji +:+ " " +:+ name
  end.

Definition isHyphen (c : ascii) : bool := bool_decide (c = "-"%char).
Definition isHyphenOrUnderscore (c : ascii) : bool :=
  bool_decide (c = "-"%char) || bool_decide (c = "_"%char).

(** [slug.split(sep).map(w => w.charAt(0).toUpperCase() + w.slice(1)).join(' ')] *)
Definition friendlyName (isSep : ascii -> bool) (slug : string) : string :=
  Js.join " " (map Js.capitalize (Js.splitChars isSep slug)).

(** [ensureCategoryFolder(categoryId)].  It reads the stored categories,
    not the copy that a running job holds. *)
Definition ensureCategoryFolder (categoryId : string) (w : World)
  : World * Completion BookmarkId :=
  match folderError P categoryId with
  | Some e => (w, Throw e)
  | None =>
      let folderName :=
        match assocGet categoryId (userCategories (storage w)) with
        | Some cat => folderNameOf (cat_emoji cat) (cat_name cat)
        | None => folderNameOf EmptyString (friendlyName isHyphen categoryId)
        end in
      let '(parentId, w) := getSmartParentId w in
      let '(folderId, w) := getOrCreateChildFolder parentId folderName w in
      (w, Normal folderId)
  end.

(** [safeMove(bookmarkId, parentId)]: the move is refused when either node
    is missing or the target lies inside the moved node; the refusal is
    caught and logged. *)
Definition safeMove (bookmarkId parentId : BookmarkId) (w : World) : World :=
  let b := bookmarks w in
  match Tree.find bookmarkId (roots b), Tree.find parentId (roots b) with
  | Some n, Some _ =>
      match Tree.find parentId [n] with
      | Some _ => w
      | None =>
          emit (EBookmarkMove bookmarkId parentId)
            (setBookmarks
               (mkStore (Tree.insert parentId n (Tree.remove bookmarkId (roots b)))
                        (nextId b) (defaultParent b)) w)
      end
  | _, _ => w
  end.

(** ** URL normalisation for duplicate detection *)

Definition paramsToRemove : list string :=
  [ "utm_source"; "utm_medium"; "utm_campaign"; "utm_term"; "utm_content";
    "fbclid"; "gclid"; "ref"; "source"; "campaign_id"; "ad_id";
    "track"; "tracking"; "campaign"; "medium" ].

(** [urlObj.searchParams.delete(param)] for every listed parameter. *)
Definition deleteTrackingParams (u : URL) : URL :=
  mkURL (protocol u) (username u) (password u) (hostname u) (port u) (pathname u)
        (filter (fun kv => kv.1 ∉ paramsToRemove) (searchParams u)) (hash u).

(** [urlObj.toString()] *)
Definition URL_toString (u : URL) : string :=
  protocol u +:+ "//" +:+
  (match username u, password u with
   | EmptyString, EmptyString => EmptyString
   | un, EmptyString => un +:+ "@"
   | un, pw => un +:+ ":" +:+ pw +:+ "@"
   end) +:+
  hostname u +:+
  (match port u with
   | EmptyString => EmptyString
   | p => ":" +:+ p
   end) +:+
  pathname u +:+ search u +:+ hash u.

(** [s.replace(/\/$/, '')] *)
Fixpoint stripTrailingSlash (s : string) : string :=
  match s with
  | EmptyString => EmptyString
  | String c r =>
      match r with
      | EmptyString => if decide (c = "/"%char) then EmptyString else s
      | _ => String c (stripTrailingSlash r)
      end
  end.

(** [s.replace(/^https?:\/\/www\./, 'https://')] *)
Definition replaceWwwPrefix (s : string) : string :=
  if Js.startsWith "http://www." s then "https://" +:+ Js.drop 11 s
  else if Js.startsWith "https://www." s then "https://" +:+ Js.drop 12 s
  else s.

(** [normalizeUrl(url)] *)
Definition normalizeUrl (url : string) : string :=
  match URL_parse P url with
  | Some urlObj =>
      let urlObj := deleteTrackingParams urlObj in
      let normalizedUrl := stripTrailingSlash (URL_toString urlObj) in
      let normalizedUrl := replaceWwwPrefix normalizedUrl in
      Js.toLowerCase normalizedUrl
  | None => Js.trim (Js.toLowerCase url)
  end.

(** ** The duplicate reconciler *)

(** [p.title] for an element [p] of [bm.path].  [getAllBookmarksFlat]
    builds the path from the folder titles themselves, so [p] is a string,
    and reading the property [title] of a string gives [undefined]. *)
Definition pathElementTitle (p : string) : option string := None.

(** [bm.path && bm.path.some(p => p.title === SMART_PARENT)] *)
Definition isInSmart (bm : Bookmark) : bool :=
  existsb (fun p => bool_decide (pathElementTitle p = Some SMART_PARENT)) (bm_path bm).

(** The partition of [removeDuplicatesFromSmartBookmarks]. *)
Definition inSmartList (smartParentId : BookmarkId) (bm : Bookmark) : bool :=
  isInSmart bm || bool_decide (bm_parentId bm = Some smartParentId).

(** A [Map] from keys to arrays, in insertion order:
    [if (!m.has(key)) m.set(key, []); m.get(key).push(bm)]. *)
Fixpoint groupPush (key : string) (bm : Bookmark) (m : list (string * list Bookmark))
  : list (string * list Bookmark) :=
  match m with
  | [] => [(key, [bm])]
  | (k, l) :: r =>
      if decide (k = key) then (k, l ++ [bm]) :: r else (k, l) :: groupPush key bm r
  end.

(** The [forEach] that fills such a map, skipping [!bm.url]. *)
Definition groupBy (keyOf : Bookmark -> string) (bms : list Bookmark)
  : list (string * list Bookmark) :=
  fold_left (fun m bm =>
               match bm_url bm with
               | EmptyString => m
               | _ => groupPush (keyOf bm) bm m
               end) bms [].

(** [`${normalizedUrl}|${(bm.title || '').trim()}`] *)
Definition exactKey (bm : Bookmark) : string :=
  normalizeUrl (bm_url bm) +:+ "|" +:+ Js.trim (bm_title bm).

Definition urlOnlyKey (bm : Bookmark) : string := normalizeUrl (bm_url bm).

(** [(bm.title || '').trim().toLowerCase()] *)
Definition titleKey (bm : Bookmark) : string := Js.toLowerCase (Js.trim (bm_title bm)).

(** [a.dateAdded || 0] *)
Definition dateKey (bm : Bookmark) : Z := default 0%Z (bm_dateAdded bm).

(** [arr.sort((a, b) => (a.dateAdded || 0) - (b.dateAdded || 0))]; the
    sort of arrays is stable. *)
Fixpoint insertByDate (x : Bookmark) (l : list Bookmark) : list Bookmark :=
  match l with
  | [] => [x]
  | y :: r => if (dateKey x <=? dateKey y)%Z then x :: l else y :: insertByDate x r
  end.
Fixpoint sortByDate (l : list Bookmark) : list Bookmark :=
  match l with
  | [] => []
  | x :: r => insertByDate x (sortByDate r)
  end.

(** The pass over the exact matches (same normalized URL and title). *)
Definition exactPass (groups : list (string * list Bookmark))
  : nat * list Bookmark :=
  fold_left
    (fun acc g =>
       let '(found, toRemove) := acc in
       let bookmarks := g.2 in
       if (1 <? length bookmarks)%nat
       then (found + (length bookmarks - 1), toRemove ++ tail (sortByDate bookmarks))
       else acc)
    groups (0, []).

(** [if (!duplicatesToRemove.find(d => d.id === b.id)) duplicatesToRemove.push(b)] *)
Definition pushUnlessListed (toRemove : list Bookmark) (b : Bookmark) : list Bookmark :=
  if existsb (fun d => bool_decide (bm_id d = bm_id b)) toRemove
  then toRemove else toRemove ++ [b].

(** The pass over the URL-only matches, split by normalized title. *)
Definition urlOnlyPass (groups : list (string * list Bookmark))
    (acc : nat * list Bookmark) : nat * list Bookmark :=
  fold_left
    (fun acc g =>
       let bookmarks := g.2 in
       if (1 <? length bookmarks)%nat
       then
         fold_left
           (fun acc tg =>
              let '(found, toRemove) := acc in
              let titleBookmarks := tg.2 in
              if (1 <? length titleBookmarks)%nat
              then (found + (length titleBookmarks - 1),
                    fold_left pushUnlessListed (tail (sortByDate titleBookmarks)) toRemove)
              else acc)
           (groupBy titleKey bookmarks) acc
       else acc)
    groups acc.

(** [chrome.bookmarks.remove(id, cb)] with [chrome.runtime.lastError]
    turned into a rejection. *)
Definition removeBookmark (i : BookmarkId) (w : World) : World * Completion unit :=
  match removeError P i with
  | Some e => (w, Throw e)
  | None =>
      let b := bookmarks w in
      match Tree.find i (roots b) with
      | None => (w, Throw "Can't find bookmark for id.")
      | Some _ =>
          (emit (EBookmarkRemove i)
             (setBookmarks (mkStore (Tree.remove i (roots b)) (nextId b) (defaultParent b)) w),
           Normal tt)
      end
  end.

(** One turn of the removal loop, inside its [try]. *)
Definition removeDuplicate (acc : nat * World) (duplicate : Bookmark) : nat * World :=
  let '(duplicatesRemoved, w) := acc in
  match removeBookmark (bm_id duplicate) w with
  | (w, Normal _) =>
      let duplicatesRemoved := S duplicatesRemoved in
      let meta := bookmarkMeta (storage w) in
      match meta !! bm_id duplicate with
      | Some _ => (duplicatesRemoved, saveMeta (delete (bm_id duplicate) meta) w)
      | None => (duplicatesRemoved, w)
      end
  | (w, Throw _) => (duplicatesRemoved, w)
  end.

Record DedupeResult := mkDedupe {
  dd_success : bool;
  duplicatesFound : nat;
  duplicatesRemoved : nat;
  smartBookmarksTotal : nat;
  originalBookmarksTotal : nat
}.

(** The list [duplicatesToRemove] and the count [duplicatesFound] that the
    two passes build from the bookmarks found in the smart folder. *)
Definition findDuplicates (smartBookmarks : list Bookmark) : nat * list Bookmark :=
  urlOnlyPass (groupBy urlOnlyKey smartBookmarks)
              (exactPass (groupBy exactKey smartBookmarks)).

(** [removeDuplicatesFromSmartBookmarks()] *)
Definition removeDuplicatesFromSmartBookmarks (w : World) : World * DedupeResult :=
  let '(smartParentId, w) := getSmartParentId w in
  let allBookmarks := getAllBookmarksFlat w in
  let smartBookmarks := List.filter (inSmartList smartParentId) allBookmarks in
  let regularBookmarks := List.filter (fun bm => negb (inSmartList smartParentId bm)) allBookmarks in
  let '(duplicatesFound, duplicatesToRemove) := findDuplicates smartBookmarks in
  let '(duplicatesRemoved, w) := fold_left removeDuplicate duplicatesToRemove (0, w) in
  (w, mkDedupe true duplicatesFound duplicatesRemoved
        (length smartBookmarks) (length regularBookmarks)).

(** ** The organization job engine *)

(** The object that [startOrganize] resolves to. *)
Record StartResult := mkStartResult {
  success : bool;
  sr_error : option string;
  sr_message : option string;
  sr_stats : option Stats
}.

(** The locals [meta] and [userCategories] of a run, and the world. *)
Record LoopState := mkLoop {
  l_meta : gmap BookmarkId BookmarkMeta;
  l_cats : list (string * CategoryDef);
  l_world : World
}.

(** How the body of the loop is left: by falling through to the progress
    update, or by the [continue] of the clone handler. *)
Inductive ItemExit := FallThrough | Continue.

(** [if (!slug || slug.trim() === '') slug = 'other';
     slug = slug.toLowerCase().trim();] *)
Definition normalizeSlug (slug : string) : string :=
  let slug := match Js.trim slug with
              | EmptyString => "other"
              | _ => slug
              end in
  Js.trim (Js.toLowerCase slug).

(** [userCategories[slug] = { id, name, emoji, parent, order }] when the
    slug is not present yet. *)
Definition addCategoryIfMissing (isSep : ascii -> bool) (slug : string)
    (cats : list (string * CategoryDef)) : list (string * CategoryDef) :=
  match assocGet slug cats with
  | Some _ => cats
  | None =>
      cats ++ [(slug, mkCat slug (friendlyName isSep slug) "📁" None (S (length cats)))]
  end.

(** The writes to [meta[bm.id]] that persist the classification. *)
Definition recordClassification (slug description : string) (m : BookmarkMeta)
  : BookmarkMeta :=
  mkMeta (Some slug) (Some description) (manual m) (categories m) (tags m)
         true (Some (now P)) (clonedFrom m) (organizeFailed m) (lastError m) false.

(** The metadata of a clone. *)
Definition cloneMeta (slug description : string) (source : BookmarkId) : BookmarkMeta :=
  mkMeta (Some slug) (Some description) false None None
         true (Some (now P)) (Some source) false None false.

(** The handler of the per-item [catch]. *)
Definition recordFailure (msg : string) (m : BookmarkMeta) : BookmarkMeta :=
  mkMeta (primary m) (description m) (manual m) (categories m) (tags m)
         (organized m) (organizedAt m) (clonedFrom m) true (Some msg)
         (needsReclassification m).

(** [organizationStats.categories[slug] = (... || 0) + 1] and the count of
    recent bookmarks. *)
Definition countBookmark (slug : string) (bm : Bookmark) (weekAgo : Z) (s : Stats) : Stats :=
  let isRecent := match bm_dateAdded bm with
                  | Some d => negb (d =? 0)%Z && (weekAgo <? d)%Z
                  | None => false
                  end in
  mkStats (totalBookmarks s) (categoriesCreated s)
          (<[slug := S (default 0 (stat_categories s !! slug))]> (stat_categories s))
          (favorites s)
          (if isRecent then S (recent s) else recent s).

(** The slug and description of a bookmark: taken from its metadata when
    it has a primary category and is not flagged for reclassification,
    else asked from the classifier. *)
Definition classifyForJob (bm : Bookmark) (st : LoopState)
  : World * Completion (string * string) :=
  let w := l_world st in
  let reuse :=
    match l_meta st !! bm_id bm with
    | Some m =>
        if Js.truthy (primary m) && negb (needsReclassification m)
        then Some (Js.orEmpty (primary m), Js.orEmpty (description m))
        else None
    | None => None
    end in
  match reuse with
  | Some sd => (w, Normal sd)
  | None =>
      let '(w, c) := categorizeBookmarkDetailed P (Some (bm_id bm)) (bm_title bm) (bm_url bm) w in
      (w, r <-- c ;; Normal (Js.orElse (res_category r) "other", res_description r))
  end.

(** The body of the loop for one bookmark: the [try] block and its
    [catch]. *)
Definition organizeItem (strategy : string) (weekAgo : Z) (bm : Bookmark)
    (st : LoopState) : LoopState * ItemExit :=
  let failed (msg : string) (meta : gmap BookmarkId BookmarkMeta)
             (cats : list (string * CategoryDef)) (w : World) :=
    (mkLoop (<[bm_id bm := recordFailure msg (default emptyMeta (meta !! bm_id bm))]> meta)
            cats w, FallThrough) in
  match classifyForJob bm st with
  | (w, Throw msg) => failed msg (l_meta st) (l_cats st) w
  | (w, Normal (slug, description)) =>
      let slug := normalizeSlug slug in
      let cats := addCategoryIfMissing isHyphenOrUnderscore slug (l_cats st) in
      let meta :=
        <[bm_id bm := recordClassification slug description
                        (default emptyMeta (l_meta st !! bm_id bm))]> (l_meta st) in
      match ensureCategoryFolder slug w with
      | (w, Throw msg) => failed msg meta cats w
      | (w, Normal targetParent) =>
          if decide (strategy = "move") then
            let w := safeMove (bm_id bm) targetParent w in
            (mkLoop meta cats
               (setStats (countBookmark slug bm weekAgo (organizationStats w)) w),
             FallThrough)
          else
            match createError P (bm_id bm) with
            | Some _ => (mkLoop meta cats w, Continue)
            | None =>
                let '(newId, w) :=
                  createNode (Some targetParent) (bm_title bm) (Some (bm_url bm)) w in
                let meta := <[newId := cloneMeta slug description (bm_id bm)]> meta in
                (mkLoop meta cats
                   (setStats (countBookmark slug bm weekAgo (organizationStats w)) w),
                 FallThrough)
            end
      end
  end.

Definition withProgress (d : nat) (t : string) (o : OrgState) : OrgState :=
  mkOrgState (status o) (total o) d (startedAt o) (Some t) (provider o)
             (completedAt o) (error o).

(** The progress update that ends the body of the loop. *)
Definition updateProgress (i : nat) (bm : Bookmark) (w : World) : World :=
  let w := setOrgState (withProgress (i + 1) (bm_title bm) (orgState w)) w in
  let w := saveOrgState w in
  broadcastProgress
    (mkProgress Running (done (orgState w)) (total (orgState w)) None None) w.

(** The processing loop.  [interference i] is what other handlers of the
    service worker did to [orgState] while the loop was suspended before
    its turn [i]. *)
Fixpoint organizeLoop (interference : nat -> OrgState -> OrgState)
    (strategy : string) (weekAgo : Z) (i : nat) (toProcess : list Bookmark)
    (st : LoopState) : LoopState :=
  match toProcess with
  | [] => st
  | bm :: rest =>
      let w := l_world st in
      let st := mkLoop (l_meta st) (l_cats st)
                       (setOrgState (interference i (orgState w)) w) in
      if decide (status (orgState (l_world st)) = Running) then
        let '(st, exit) := organizeItem strategy weekAgo bm st in
        let st := match exit with
                  | FallThrough =>
                      mkLoop (l_meta st) (l_cats st) (updateProgress i bm (l_world st))
                  | Continue => st
                  end in
        organizeLoop interference strategy weekAgo (S i) rest st
      else st
  end.

Definition withStatus (s : Status) (o : OrgState) : OrgState :=
  mkOrgState s (total o) (done o) (startedAt o) (lastTitle o) (provider o)
             (completedAt o) (error o).

(** The handler of the outer [catch]. *)
Definition failRun (msg : string) (w : World) : World * StartResult :=
  let o := orgState w in
  let w := setOrgState (mkOrgState Failed (total o) (done o) (startedAt o)
                          (lastTitle o) (provider o) (completedAt o) (Some msg)) w in
  let w := saveOrgState w in
  let w := broadcastProgress
             (mkProgress Failed (done (orgState w)) (total (orgState w)) None (Some msg)) w in
  (w, mkStartResult false (Some msg) None None).

(** The list of bookmarks to process. *)
Definition eligible (smartParentId : BookmarkId) (all : list Bookmark) : list Bookmark :=
  List.filter
    (fun b => negb (bool_decide (bm_parentId b = Some smartParentId)) && negb (isInSmart b))
    all.

(** What follows the loop, up to the return. *)
Definition finishRun (strategy : string) (st : LoopState) : World * StartResult :=
  let w := l_world st in
  match saveMetaError P with
  | Some msg => failRun msg w
  | None =>
      let w := saveMetaAndCategories (l_meta st) (l_cats st) w in
      let w :=
        if decide (strategy = "clone") then
          let w := broadcastProgress
                     (mkProgress Running (total (orgState w)) (total (orgState w))
                                 (Some "Removing duplicates...") None) w in
          fst (removeDuplicatesFromSmartBookmarks w)
        else w in
      let o := orgState w in
      let w := setOrgState (mkOrgState Done (total o) (done o) (startedAt o)
                              (lastTitle o) (provider o) (Some (now P)) (error o)) w in
      let w := saveOrgState w in
      let w := broadcastProgress
                 (mkProgress Done (total (orgState w)) (total (orgState w)) None None) w in
      let s := organizationStats w in
      let w := setStats (mkStats (totalBookmarks s) (size (stat_categories s))
                           (stat_categories s) (favorites s) (recent s)) w in
      let w := saveStats w in
      (w, mkStartResult true None None (Some (organizationStats w)))
  end.

(** The start of an accepted run, up to the loop: the strategy, the
    initial job state with its write and broadcast, the reset of the
    statistics and the load of the metadata and categories. *)
Definition beginRun (toProcess all : list Bookmark) (w : World)
  : string * Z * LoopState :=
  let strategy := Js.orElse (Js.orEmpty (organize_strategy (storage w))) "clone" in
  let w := setOrgState
             (mkOrgState Running (length toProcess) 0 (Some (now P)) None
                         (Js.orElse (aiMode w) "local") None None) w in
  let w := saveOrgState w in
  let w := broadcastProgress (mkProgress Running 0 (length toProcess) None None) w in
  let s := organizationStats w in
  let w := setStats (mkStats (length all) (categoriesCreated s) ∅ (favorites s) 0) w in
  let weekAgo := (now P - 7 * 24 * 60 * 60 * 1000)%Z in
  let meta := bookmarkMeta (storage w) in
  let cats := userCategories (storage w) in
  (strategy, weekAgo, mkLoop meta cats w).

(** [startOrganize()] *)
Definition startOrganize (interference : nat -> OrgState -> OrgState) (w : World)
  : World * StartResult :=
  if decide (status (orgState w) = Running) then
    (w, mkStartResult false (Some "Already organizing") None None)
  else
    let w := AIService_init w in
    let all := getAllBookmarksFlat w in
    let '(smartParentId, w) := getSmartParentId w in
    let toProcess := eligible smartParentId all in
    match toProcess with
    | [] => (w, mkStartResult true None (Some "No bookmarks need organizing") None)
    | _ =>
        let '(strategy, weekAgo, st) := beginRun toProcess all w in
        finishRun strategy (organizeLoop interference strategy weekAgo 0 toProcess st)
    end.

(** [resetOrganizeState()] *)
Definition resetOrganizeState (w : World) : World :=
  let w := setOrgState (mkOrgState Idle 0 0 None None "local" None None) w in
  let w := saveOrgState w in
  let s := storage w in
  let w := emit ERemoveProgress
             (setStorage (mkStorage (organization_stats s) (org_state s) None
                            (bookmarkMeta s) (userCategories s) (organize_strategy s)
                            (classification_mode s) (openai_api_key s)) w) in
  broadcastProgress (mkProgress Idle 0 0 None None) w.

(** ** Taxonomy reconciliation (the updateUserCategories handler) *)

(** [ensureUserCategoryFolders()] *)
Definition ensureUserCategoryFolders (w : World) : World :=
  let userCategories := userCategories (storage w) in
  match userCategories with
  | [] => w
  | _ =>
      let '(parentId, w) := getSmartParentId w in
      let children := Tree.getChildren parentId (roots (bookmarks w)) in
      let existing := map node_title (List.filter isFolder children) in
      fold_left
        (fun w kc =>
           let folderName := folderNameOf (cat_emoji kc.2) (cat_name kc.2) in
           if bool_decide (folderName ∈ existing) then w
           else snd (createNode (Some parentId) folderName None w))
        userCategories w
  end.











End Background.

(** ** Start of the service worker (background script) *)

(** The globals as the script sets them when the service worker starts:
    [organizationStats], [orgState] and the mode of [new AIService()]. *)
Definition initialStats : Stats := mkStats 0 0 ∅ 0 0.
Definition initialOrgState : OrgState :=
  mkOrgState Idle 0 0 None None "local" None None.

(** A start of the service worker: the globals are fresh, the two stores
    and the log are what they were. *)
Definition startWorker (w : World) : World :=
  mkWorld initialOrgState initialStats "local" (storage w) (bookmarks w) (effects w).

(** [{ ...orgState, ...data.org_state }].  The stored object is one that
    [saveOrgState] wrote: it has the six keys of the object literals, and
    the keys [completedAt] and [error] once they were assigned. *)
Definition mergeOrgState (cur stored : OrgState) : OrgState :=
  mkOrgState (status stored) (total stored) (done stored) (startedAt stored)
             (lastTitle stored) (provider stored)
             (match completedAt stored with
              | Some c => Some c
              | None => completedAt cur
              end)
             (match error stored with
              | Some e => Some e
              | None => error cur
              end).

(** [loadState()] *)
Definition loadState (w : World) : World :=
  let w := match organization_stats (storage w) with
           | Some s => setStats s w
           | None => w
           end in
  match org_state (storage w) with
  | Some o => setOrgState (mergeOrgState (orgState w) o) w
  | None => w
  end.

(** ** The local classifier and [categorizeText] (ai_service.js) *)

(** [arr.some((k) => s.includes(k))] *)
Definition hit (s : string) (arr : list string) : bool := existsb (Js.includes s) arr.

(** [LocalClassifier.categorize(text)] *)
Definition LocalClassifier_categorize (customCategories : list string) (text : string)
  : string :=
  let s := Js.toLowerCase text in
  if hit s ["ai"; "artificial intelligence"; "machine learning"; "neural";
            "chatgpt"; "openai"; "hugging face"; "tensorflow"; "pytorch";
            "claude"; "gemini"; "anthropic"; "llm"]
  then "AI Tools"
  else if hit s ["react"; "vue"; "angular"; "svelte"; "typescript";
                 "javascript"; "css"; "html"; "frontend"; "ui"; "ux"; "design";
                 "tailwind"; "bootstrap"; "sass"; "vite"; "webpack"]
  then "Frontend"
  else if hit s ["backend"; "server"; "api"; "rest"; "graphql"; "node";
                 "express"; "django"; "flask"; "fastapi"; "spring"; "laravel";
                 "php"; "python"; "java"; "golang"; "rust"; "microservice";
                 "serverless"]
  then "Backend"
  else if hit s ["database"; "sql"; "mysql"; "postgresql"; "postgres";
                 "mongodb"; "redis"; "elasticsearch"; "cassandra"; "oracle";
                 "sqlite"]
  then "Database"
  else if hit s ["test"; "testing"; "qa"; "quality assurance"; "selenium";
                 "cypress"; "jest"; "mocha"; "junit"; "pytest"; "e2e"; "tdd";
                 "bdd"]
  then "QA"
  else if hit s ["docker"; "kubernetes"; "k8s"; "aws"; "azure"; "gcp";
                 "devops"; "jenkins"; "gitlab"; "github actions"; "terraform";
                 "ansible"; "helm"; "prometheus"; "grafana"; "infrastructure"]
  then "DevOps"
  else if hit s ["docs"; "documentation"; "guide"; "tutorial"; "manual";
                 "reference"]
          || Js.includes s "docs." || Js.includes s "/docs/"
  then "Documentation"
  else if hit s ["github"; "stackoverflow"; "programming"; "code"; "developer";
                 "coding"; "software"]
  then "Programming"
  else
    match List.find (fun c => let lc := Js.toLowerCase (Js.trim c) in
                              Js.truthy (Some lc) && Js.includes s lc)
                    customCategories with
    | Some c => c
    | None => "Other"
    end.

(** The fields of an [AIService] that [categorizeText] reads and writes,
    and the clock: [Date.now()] is [ai_clock], which a wait moves on. *)
Record AIService := mkAIService {
  ai_mode : string;
  ai_openaiApiKey : option string;
  ai_geminiApiKey : option string;
  ai_claudeApiKey : option string;
  ai_uclassifyApiKey : option string;
  ai_rateLimitDelay : Z;
  ai_lastRequest : Z;
  ai_customCategories : list string;
  ai_clock : Z
}.

Definition setClock (t : Z) (s : AIService) : AIService :=
  mkAIService (ai_mode s) (ai_openaiApiKey s) (ai_geminiApiKey s) (ai_claudeApiKey s)
              (ai_uclassifyApiKey s) (ai_rateLimitDelay s) (ai_lastRequest s)
              (ai_customCategories s) t.

Definition setLastRequest (t : Z) (s : AIService) : AIService :=
  mkAIService (ai_mode s) (ai_openaiApiKey s) (ai_geminiApiKey s) (ai_claudeApiKey s)
              (ai_uclassifyApiKey s) (ai_rateLimitDelay s) t
              (ai_customCategories s) (ai_clock s).

(** [waitRateLimit()].  A timer set for [d] milliseconds fires [d + late]
    milliseconds later, for a lateness [late] that the platform chooses. *)
Definition waitRateLimit (late : Z) (s : AIService) : AIService :=
  let now := ai_clock s in
  let delta := (now - ai_lastRequest s)%Z in
  let s := if (delta <? ai_rateLimitDelay s)%Z
           then setClock (now + (ai_rateLimitDelay s - delta) + late)%Z s
           else s in
  setLastRequest (ai_clock s) s.

(** The four providers, [categorizeWithOpenAI] and the like: without a key
    nothing happens; with a key the rate limit is awaited and the answer is
    [null] all the same. *)
Definition categorizeWithProvider (key : AIService -> option string) (late : Z)
    (s : AIService) : AIService * option string :=
  if Js.truthy (key s) then (waitRateLimit late s, None) else (s, None).

(** [a || b] for a possibly absent label [a]. *)
Definition labelOr (a : option string) (b : string) : string :=
  if Js.truthy a then Js.orEmpty a else b.

(** [this.localClassifier.categorize(text)] *)
Definition localAnswer (text : string) (s : AIService) : string :=
  LocalClassifier_categorize (ai_customCategories s) text.

(** [categorizeText(text)].  The constructor sets [localClassifier], so the
    guarded call of [init] at its start never runs. *)
Definition categorizeText (late : Z) (text : string) (s : AIService)
  : AIService * string :=
  let mode := Js.orElse (ai_mode s) "local" in
  if decide (mode = "local") then (s, localAnswer text s)
  else if decide (mode = "api_openai") then
    let '(s, openai) := categorizeWithProvider ai_openaiApiKey late s in
    (s, labelOr openai (localAnswer text s))
  else if decide (mode = "api_gemini") then
    let '(s, gem) := categorizeWithProvider ai_geminiApiKey late s in
    (s, labelOr gem (localAnswer text s))
  else if decide (mode = "api_claude") then
    let '(s, cla) := categorizeWithProvider ai_claudeApiKey late s in
    (s, labelOr cla (localAnswer text s))
  else if decide (mode = "api_uclassify") then
    let '(s, uc) := categorizeWithProvider ai_uclassifyApiKey late s in
    (s, labelOr uc (localAnswer text s))
  else
    let providers := [ai_openaiApiKey; ai_geminiApiKey; ai_claudeApiKey;
                      ai_uclassifyApiKey] in
    let '(s, found) :=
      fold_left (fun acc key =>
                   let '(s, found) := acc in
                   if Js.truthy found then acc
                   else categorizeWithProvider key late s)
                providers (s, None) in
    (s, labelOr found (localAnswer text s)).

(** The host and the path that the classifier prepares from the url:
    empty both when the url does not parse. *)
Definition hostAndPath (P : Platform) (url : string) : string * string :=
  match tryCatch
          (u <-- newURL P url ;;
           Normal (stripWww (Js.toLowerCase (hostname u)),
                   Js.toLowerCase (pathname u +:+ search u)))
          (fun _ => Normal (EmptyString, EmptyString)) with
  | Normal hp => hp
  | Throw _ => (EmptyString, EmptyString)
  end.

(** ** Handlers of the messages of the popup, the dashboard and the options
       page (background script) *)

(** The response [{ success, error }] of a handler. *)
Record Response := mkResponse {
  rs_success : bool;
  rs_error : option string
}.

(** The [tags] of a request: an array, a string, or anything else. *)
Inductive TagsArg :=
| TagsAbsent
| TagsArray (ts : list string)
| TagsString (s : string).

Definition isComma (c : ascii) : bool := bool_decide (c = ","%char).

(** [tags.split(',').map((t) => t.trim()).filter((t) => t)] *)
Definition parseTags (s : string) : list string :=
  List.filter (fun t => Js.truthy (Some t)) (map Js.trim (Js.splitChars isComma s)).

(** The writes of [updateBookmarkMeta] to [meta[id]]. *)
Definition setManualCategory (category : string) (tagsArg : TagsArg) (m : BookmarkMeta)
  : BookmarkMeta :=
  mkMeta (Some category) (description m) true (categories m)
         (match tagsArg with
          | TagsArray ts => Some ts
          | TagsString (String c r) => Some (parseTags (String c r))
          | _ => tags m
          end)
         (organized m) (organizedAt m) (clonedFrom m) (organizeFailed m)
         (lastError m) (needsReclassification m).












Section Handlers.

Context (P : Platform).

(** [chrome.runtime.lastError] or the rejection of creating the bookmark
    of a page, by its url. *)
Context (pageCreateError : string -> option string).

(** The handler of the message [updateBookmarkMeta]. *)
Definition updateBookmarkMeta (id : option BookmarkId) (category : option string)
    (tagsArg : TagsArg) (w : World) : World * Response :=
  match id, category with
  | Some id, Some (String c r) =>
      let category := String c r in
      let userCategories :=
        addCategoryIfMissing isHyphen category (userCategories (storage w)) in
      let meta := bookmarkMeta (storage w) in
      let meta :=
        <[id := setManualCategory category tagsArg (default emptyMeta (meta !! id))]> meta in
      let w := saveMetaAndCategories meta userCategories w in
      match ensureCategoryFolder P category w with
      | (w, Normal folderId) => (safeMove id folderId w, mkResponse true None)
      | (w, Throw e) => (w, mkResponse false (Some e))
      end
  | _, _ => (w, mkResponse false (Some "Missing id or category"))
  end.






End Handlers.


(** ** Well-formed bookmark stores *)

(** The nodes of a forest in document order, and their ids. *)
Definition nodesIn (roots : list Node) : list Node := map snd (Tree.allNodes roots).

Definition idsOf (roots : list Node) : list BookmarkId := map node_id (nodesIn roots).

(** What the platform keeps true of the bookmark store: ids are distinct,
    the ids handed out so far are below the next one, and the folder that
    receives nodes created without a parent exists. *)
Definition storeOk (b : BookmarkStore) : Prop :=
  NoDup (idsOf (roots b)) ∧
  Forall (fun i => (i < nextId b)%N) (idsOf (roots b)) ∧
  defaultParent b ∈ idsOf (roots b).

(** How the document order changes when the node [x] is put last under the
    node [p]: every node stays, and [x] appears only after a node [p] has
    been passed (the flag). *)
Inductive grown (p : BookmarkId) (x : Node) : bool → list Node → list Node → Prop :=
| grown_nil b : grown p x b [] []
| grown_keep b n l l' :
    grown p x (b || bool_decide (node_id n = p)) l l' →
    grown p x b (n :: l) (Tree.insertUnder p x n :: l')
| grown_new l l' : grown p x true l l' → grown p x true l (x :: l').

(** The test of [getSmartParentId] and the folder it finds. *)
Definition isSmartFolder (n : Node) : bool :=
  isFolder n && bool_decide (node_title n = SMART_PARENT).

Definition smartFolder (w : World) : option Node :=
  List.find isSmartFolder (nodesIn (roots (bookmarks w))).

(** The test of [getOrCreateChildFolder]. *)
Definition isFolderNamed (name : string) (c : Node) : bool :=
  isFolder c && bool_decide (node_title c = name).



(** The creation of a folder. *)
Definition isFolderCreation (e : Effect) : bool :=
  match e with
  | EBookmarkCreate _ _ None _ => true
  | _ => false
  end.


(** A step from [w] to [w'] that writes nothing but new folders: the job
    state, the statistics and the storage are as before. *)
Definition foldersOnly (w w' : World) : Prop :=
  orgState w' = orgState w ∧
  organizationStats w' = organizationStats w ∧
  storage w' = storage w ∧
  ∃ es, effects w' = effects w ++ es ∧ forallb isFolderCreation es = true.



(** [bm.url] is not empty. *)
Definition hasUrl (bm : Bookmark) : bool := Js.truthy (Some (bm_url bm)).

(** Two copies of a page for the reconciler: the same normalized URL and
    the same title up to letter case and outer white space. *)
Definition sameCopy (P : Platform) (a b : Bookmark) : bool :=
  bool_decide (urlOnlyKey P a = urlOnlyKey P b) && bool_decide (titleKey a = titleKey b).

(** The bookmarks that the second pass of the reconciler goes through: for
    each group of one normalized URL, for each of its groups of one title,
    all but the oldest. *)
Definition urlOnlyCandidates (P : Platform) (smartBookmarks : list Bookmark)
  : list Bookmark :=
  flat_map (fun U => flat_map (fun T => tail (sortByDate T.2)) (groupBy titleKey U.2))
           (groupBy (urlOnlyKey P) smartBookmarks).

(** The array that a [Map] of the reconciler holds for a key, empty when
    the key is not there. *)
Definition groupOf (k : string) (m : list (string * list Bookmark)) : list Bookmark :=
  default [] (assocGet k m).


(** The copies of [b] among some bookmarks, and those with its exact
    key. *)
Definition copiesOf (P : Platform) (b : Bookmark) (l : list Bookmark) : list Bookmark :=
  List.filter (fun x => hasUrl x && sameCopy P x b) l.

Definition exactOf (P : Platform) (b : Bookmark) (l : list Bookmark) : list Bookmark :=
  List.filter (fun x => hasUrl x && bool_decide (exactKey P x = exactKey P b)) l.

(** What the removal loop of the reconciler writes: the removal of a
    bookmark, and the metadata without its record. *)
Definition isDedupeWrite (e : Effect) : bool :=
  match e with
  | EBookmarkRemove _ | ESaveMeta _ => true
  | _ => false
  end.


(** The bookmark removals among some effects, in order. *)
Definition removalsOf (es : list Effect) : list BookmarkId :=
  omap (fun e => match e with EBookmarkRemove i => Some i | _ => None end) es.

(** ** Observations on the effect log *)

(** The progress messages among some effects, in order. *)
Definition broadcastsOf (es : list Effect) : list Progress :=
  omap (fun e => match e with EBroadcast p => Some p | _ => None end) es.

(** The states saved under [org_state] among some effects, in order. *)
Definition stateSavesOf (es : list Effect) : list OrgState :=
  omap (fun e => match e with ESaveOrgState o => Some o | _ => None end) es.

Definition effectName (e : Effect) : string :=
  match e with
  | ESaveOrgState _ => "saveOrgState"
  | EBroadcast _ => "broadcastProgress"
  | ESaveMeta _ => "set bookmarkMeta"
  | ESaveMetaAndCategories _ _ => "set bookmarkMeta, userCategories"
  | ESaveCategories _ => "set userCategories"
  | ESaveStats _ => "saveStats"
  | ERemoveProgress => "remove organize_progress"
  | EBookmarkCreate _ _ _ _ => "bookmarks.create"
  | EBookmarkMove _ _ => "bookmarks.move"
  | EBookmarkRemove _ => "bookmarks.remove"
  | EBookmarkRemoveTree _ => "bookmarks.removeTree"
  end.


(** A step from [w] to [w'] that leaves the job state alone, hands out ids
    upwards and adds to the log without any progress message. *)
Definition quiet (w w' : World) : Prop :=
  orgState w' = orgState w ∧
  (nextId (bookmarks w) ≤ nextId (bookmarks w'))%N ∧
  ∃ es, effects w' = effects w ++ es ∧ broadcastsOf es = [] ∧ stateSavesOf es = [].

(** A quiet step that also leaves the storage alone. *)
Definition silent (w w' : World) : Prop := quiet w w' ∧ storage w' = storage w.







(** ** Concrete platforms and worlds used in the examples *)

Module Demo.

Local Open Scope N_scope.

(** The records that the [URL] class gives for the URLs of the examples. *)
Definition urlTable : list (string * URL) :=
  [ ("https://example.com/page",
     mkURL "https:" "" "" "example.com" "" "/page" [] "");
    ("http://www.example.com/page",
     mkURL "http:" "" "" "www.example.com" "" "/page" [] "");
    ("http://www.www.example.com/p",
     mkURL "http:" "" "" "www.www.example.com" "" "/p" [] "");
    ("https://www.example.com/p",
     mkURL "https:" "" "" "www.example.com" "" "/p" [] "");
    ("https://example.org/news",
     mkURL "https:" "" "" "example.org" "" "/news" [] "");
    ("https://example.org/data.json",
     mkURL "https:" "" "" "example.org" "" "/data.json" [] "") ].

(** A platform without network: every fetch fails, the chat endpoint is
    out of reach, nothing else fails.  The HTML patterns are only ever run
    on the empty string, where none of them matches. *)
Definition offline : Platform :=
  mkPlatform (fun _ => FetchNetworkError)
             (fun s => assocGet s urlTable)
             (fun _ _ => None) (fun _ _ => [])
             (fun _ => ChatThrows) 1000%Z
             (fun _ => None) (fun _ => None) None (fun _ => None).



Definition emptyStorage : Storage := mkStorage None None None ∅ [] None None None.
Definition idle : OrgState := mkOrgState Idle 0 0 None None "local" None None.
Definition noStats : Stats := mkStats 0 0 ∅ 0 0.

Definition worldOf (o : OrgState) (s : Storage) (tree : list Node) : World :=
  mkWorld o noStats "local" s (mkStore tree 100 2) [].

Definition page : string := "https://example.com/page".

(** Two bookmarks in the bookmarks bar, nothing organized yet. *)
Definition twoBookmarks : list Node :=
  [ mkNode 0 "" None None
      [ mkNode 1 "Bookmarks bar" None None
          [ mkNode 10 "Page" (Some page) (Some 100%Z) [];
            mkNode 11 "News" (Some "https://example.org/news") (Some 200%Z) [] ];
        mkNode 2 "Other bookmarks" None None [] ] ].

(** A job is running over three bookmarks, one of them done. *)
Definition runningWorld : World :=
  worldOf (mkOrgState Running 3 1 (Some 500%Z) (Some "Page") "local" None None)
          emptyStorage twoBookmarks.

(** The smart folder holds two copies of the same page directly. *)
Definition copiesInSmartFolder : list Node :=
  [ mkNode 0 "" None None
      [ mkNode 1 "Bookmarks bar" None None [];
        mkNode 2 "Other bookmarks" None None
          [ mkNode 3 SMART_PARENT None None
              [ mkNode 7 "Page" (Some page) (Some 100%Z) [];
                mkNode 8 "Page" (Some page) (Some 200%Z) [] ] ] ] ].

(** The smart folder holds a category folder with two copies of the same
    page, as two runs of the clone strategy leave it. *)
Definition copiesInCategoryFolder : list Node :=
  [ mkNode 0 "" None None
      [ mkNode 1 "Bookmarks bar" None None
          [ mkNode 10 "Page" (Some page) (Some 50%Z) [] ];
        mkNode 2 "Other bookmarks" None None
          [ mkNode 3 SMART_PARENT None None
              [ mkNode 4 "📁 Other" None None
                  [ mkNode 5 "Page" (Some page) (Some 100%Z) [];
                    mkNode 6 "Page" (Some page) (Some 200%Z) [] ] ] ] ] ].

Definition cloneMetaOf (source : BookmarkId) : BookmarkMeta :=
  mkMeta (Some "other") (Some "") false None None true (Some 900%Z) (Some source)
         false None false.

Definition storageWithCloneMeta : Storage :=
  mkStorage None None None
            (<[5 := cloneMetaOf 10]> (<[6 := cloneMetaOf 10]> ∅))
            [] None None None.

Definition freshWorld : World := worldOf idle emptyStorage twoBookmarks.

(** Another handler resets the job state before the second turn. *)
Definition resetBeforeSecond (i : nat) (o : OrgState) : OrgState :=
  if decide (i = 1%nat) then mkOrgState Idle 0 0 None None "local" None None else o.



(** The bookmarks that a run over [freshWorld] processes, and the state
    with which its loop starts. *)
Definition freshToProcess : list Bookmark :=
  let w := AIService_init freshWorld in
  let all := getAllBookmarksFlat w in
  eligible (getSmartParentId offline w).1 all.

Definition freshLoopStart (P : Platform) : string * Z * LoopState :=
  let w := AIService_init freshWorld in
  let all := getAllBookmarksFlat w in
  let '(smartParentId, w) := getSmartParentId P w in
  beginRun P (eligible smartParentId all) all w.






End Demo.

(** ** Further platforms and worlds used in the examples *)

Module Sample.

Local Open Scope N_scope.

(** The records that the [URL] class gives for the URLs of these
    examples. *)
Definition urls : list (string * URL) :=
  [ ("https://www.GitHub.com/rocq-prover/rocq",
     mkURL "https:" "" "" "www.github.com" "" "/rocq-prover/rocq" [] "");
    ("https://example.com/page?utm_source=mail&id=7",
     mkURL "https:" "" "" "example.com" "" "/page"
           [("utm_source", "mail"); ("id", "7")] "");
    ("https://example.com/page?id=7",
     mkURL "https:" "" "" "example.com" "" "/page" [("id", "7")] "");
    ("https://example.com/page/",
     mkURL "https:" "" "" "example.com" "" "/page/" [] "");
    ("https://example.com/page",
     mkURL "https:" "" "" "example.com" "" "/page" [] "");
    ("http://example.com/page",
     mkURL "http:" "" "" "example.com" "" "/page" [] "");
    ("https://example.org/news",
     mkURL "https:" "" "" "example.org" "" "/news" [] "");
    ("https://example.com/a|b",
     mkURL "https:" "" "" "example.com" "" "/a|b" [] "");
    ("https://example.com/a",
     mkURL "https:" "" "" "example.com" "" "/a" [] "") ].

(** No network and no failures; the chat endpoint answers with an empty
    object. *)
Definition platform : Platform :=
  mkPlatform (fun _ => FetchNetworkError)
             (fun s => assocGet s urls)
             (fun _ _ => None) (fun _ _ => [])
             (fun _ => ChatParsed None None) 1000%Z
             (fun _ => None) (fun _ => None) None (fun _ => None).

(** A library of two plain bookmarks and a stored API key. *)
Definition keyedWorld : World :=
  Demo.worldOf Demo.idle
    (mkStorage None None None ∅ [] None (Some "api_openai") (Some "sk-test"))
    Demo.twoBookmarks.



End Sample.

(* ================================================================== *)
(** * Properties *)
(* ================================================================== *)

Arguments assocGet : simpl never.
Arguments pathHint : simpl never.
Arguments mapToGeneral : simpl never.
Arguments localHeuristics : simpl never.
Arguments textBagFromHtml : simpl never.
Arguments extractTitle : simpl never.
Arguments extractMetaDesc : simpl never.
Arguments Js.slice0 : simpl never.
Arguments Js.splitSentences : simpl never.
Arguments Js.trim : simpl never.
Arguments Js.toLowerCase : simpl nomatch.

(** ** String facts *)



Lemma truthy_Some o : Js.truthy o = true → ∃ s, o = Some s ∧ s ≠ EmptyString.
Proof. destruct o as [[|c r]|]; simpl; try discriminate. eauto. Qed.



Lemma assocGet_cons {A} k k' (v : A) l :
  assocGet k ((k', v) :: l) = if decide (k' = k) then Some v else assocGet k l.
Proof. reflexivity. Qed.

Lemma assocGet_Some_In {A} k (v : A) l : assocGet k l = Some v → (k, v) ∈ l.
Proof.
  induction l as [|[k' v'] l IH]; [done|].
  rewrite assocGet_cons. case_decide; intros Hget.
  - simplify_eq. left.
  - right. auto.
Qed.

(** ** The keyword rule *)





(** The classifier reaches the keyword rule when no earlier stage answers:
    no manual override, a host outside the domain table, a path without a
    hint, and no chat key. *)
Lemma classifier_reaches_keyword_rule (P : Platform) id title url w r :
  openai_api_key (storage w) = None →
  (categorizeBookmarkDetailed P id title url w).2 = Normal r →
  res_source r = "local" ∨ res_source r = "default" →
  ∃ bag metaDesc summary, r = localHeuristics bag metaDesc summary.
Proof.
  intros Hkey Hr Hsrc. unfold categorizeBookmarkDetailed in Hr. simpl in Hr.
  rewrite Hkey in Hr. simpl in Hr.
  destruct (manualOverride id (bookmarkMeta (storage w))) as [m|] eqn:Hm.
  { unfold manualOverride in Hm.
    destruct id as [i|]; simpl in Hm; [|done].
    destruct (bookmarkMeta (storage w) !! i) as [mm|]; simpl in Hm; [|done].
    destruct (manual mm && Js.truthy (primary mm)); [|done].
    simplify_eq. simpl in Hsrc. by destruct Hsrc. }
  destruct (tryCatch _ _) as [[host path]|] eqn:Htc; simpl in Hr; [|done].
  destruct (fetchPageContent P url) as [html|] eqn:Hf; simpl in Hr; [|done].
  destruct (assocGet host DOMAIN_CATEGORY_MAP).
  { simplify_eq. simpl in Hsrc. by destruct Hsrc. }
  destruct (pathHint path).
  { simplify_eq. simpl in Hsrc. by destruct Hsrc. }
  simplify_eq. eauto.
Qed.

(** ** Concurrent start *)

(** C2.  While a job is running, [startOrganize] answers with the
    rejection [{ success: false, error: 'Already organizing' }] and leaves
    the whole world as it was: in particular [total] and [done] are
    unchanged, nothing is written and nothing is queued. *)
Theorem startOrganize_rejects_while_running (P : Platform)
    (interference : nat → OrgState → OrgState) (w : World) :
  status (orgState w) = Running →
  let '(w', r) := startOrganize P interference w in
  success r = false ∧ sr_error r = Some "Already organizing" ∧
  total (orgState w') = total (orgState w) ∧
  done (orgState w') = done (orgState w) ∧
  w' = w.
Proof.
  intros Hrun. unfold startOrganize. rewrite decide_True by done. done.
Qed.

Lemma startOrganize_rejects_while_running_witness :
  status (orgState Demo.runningWorld) = Running ∧
  let '(w', r) := startOrganize Demo.offline (fun _ o => o) Demo.runningWorld in
  success r = false ∧ sr_error r = Some "Already organizing" ∧
  total (orgState w') = 3 ∧ done (orgState w') = 1 ∧ w' = Demo.runningWorld.
Proof.
  split; [reflexivity|].
  apply (startOrganize_rejects_while_running Demo.offline (fun _ o => o) Demo.runningWorld).
  reflexivity.
Defined.

(** ** The classifier always answers *)






Lemma manualOverride_Some id meta r :
  manualOverride id meta = Some r →
  ∃ i m p, id = Some i ∧ meta !! i = Some m ∧ manual m = true ∧
    primary m = Some p ∧ p ≠ EmptyString ∧
    r = mkResult p (Js.orEmpty (description m)) "manual".
Proof.
  unfold manualOverride. destruct id as [i|]; simpl; [|done].
  destruct (meta !! i) as [m|] eqn:Hm; simpl; [|done].
  destruct (manual m) eqn:Hman; simpl; [|done].
  destruct (Js.truthy (primary m)) eqn:Ht; [|done].
  intros [= <-]. apply truthy_Some in Ht as (p & Hp & Hne).
  exists i, m, p. rewrite Hp. done.
Qed.

Lemma fetchPageContent_outcome (P : Platform) url :
  fetchPageContent P url =
    Normal match fetch P url with
           | FetchResponse _ body => Js.slice0 150000 body
           | _ => EmptyString
           end.
Proof. unfold fetchPageContent. by destruct (fetch P url). Qed.



(** ** URL normalisation *)

Lemma app_cons a s t : String a s +:+ t = String a (s +:+ t).
Proof. reflexivity. Qed.

Lemma app_nil_l t : EmptyString +:+ t = t.
Proof. reflexivity. Qed.


Lemma toLowerCase_app s t :
  Js.toLowerCase (s +:+ t) = Js.toLowerCase s +:+ Js.toLowerCase t.
Proof. induction s as [|a s IH]; [done|]. rewrite app_cons. simpl. by rewrite IH. Qed.

Lemma stripTrailingSlash_app s t :
  t ≠ EmptyString → stripTrailingSlash (s +:+ t) = s +:+ stripTrailingSlash t.
Proof.
  intros Ht. induction s as [|a s IH]; [done|].
  rewrite !app_cons. simpl. rewrite IH.
  destruct (s +:+ t) eqn:Hst; [|done].
  destruct s; [|done]. by rewrite app_nil_l in Hst.
Qed.

Lemma startsWith_strip p s :
  Js.startsWith p (stripTrailingSlash s) = true → Js.startsWith p s = true.
Proof.
  revert p. induction s as [|a s IH]; intros p; [done|].
  simpl. destruct s as [|b s'].
  - case_decide; [|done]. by destruct p.
  - destruct p as [|c p']; [done|]. simpl. destruct (ascii_dec c a); [|done].
    apply IH.
Qed.

(** A rest that begins with neither [w] nor a dot cannot complete the
    prefix [www.]. *)
Lemma startsWith_www_app X c r :
  c ≠ "w"%char → c ≠ "."%char →
  Js.startsWith "www." (X +:+ String c r) = Js.startsWith "www." X.
Proof.
  intros Hw Hd.
  destruct X as [|x1 [|x2 [|x3 [|x4 X]]]]; rewrite ?app_cons, ?app_nil_l;
    cbn [Js.startsWith];
    repeat (destruct (ascii_dec _ _); try done; subst).
Qed.


Lemma replaceWwwPrefix_https s :
  Js.startsWith "www." s = false →
  replaceWwwPrefix ("https://" +:+ s) = "https://" +:+ s.
Proof.
  intros H. unfold replaceWwwPrefix.
  change (Js.startsWith "http://www." ("https://" +:+ s)) with false.
  change (Js.startsWith "https://www." ("https://" +:+ s)) with (Js.startsWith "www." s).
  by rewrite H.
Qed.

Lemma URL_toString_plain proto host prt p params h :
  URL_toString (mkURL proto "" "" host prt (String "/" p) params h)
  = proto +:+ "//" +:+ host +:+
    (match prt with EmptyString => EmptyString | q => ":" +:+ q end +:+
     String "/" p +:+ search (mkURL proto "" "" host prt (String "/" p) params h) +:+ h).
Proof. by destruct prt. Qed.






(** ** The duplicate reconciler on concrete folders *)

(** C8, at the failing input.  Two copies of one page lie directly in the
    smart folder and every removal succeeds: the later copy is removed and
    [duplicatesRemoved] is 1, but [duplicatesFound] is 2, because the pass
    over exact matches and the pass over URL-only matches both count the
    same duplicate. *)
Theorem dedupe_counts_differ_without_failure :
  let w := Demo.worldOf Demo.idle Demo.emptyStorage Demo.copiesInSmartFolder in
  let '(w', r) := removeDuplicatesFromSmartBookmarks Demo.offline w in
  (∀ i, removeError Demo.offline i = None) ∧
  effects w' = [EBookmarkRemove 8%N] ∧
  map bm_id (getAllBookmarksFlat w') = [7%N] ∧
  dd_success r = true ∧
  duplicatesRemoved r = 1 ∧
  duplicatesFound r = 2 ∧
  duplicatesRemoved r ≠ duplicatesFound r.
Proof. vm_compute. repeat split; (done || discriminate). Qed.

(** C6, at the failing input.  Two copies of one page lie in a category
    folder inside the smart folder.  The reconciler recognises a bookmark
    of the smart folder by [bm.parentId === smartParentId] or by a path
    element whose [title] is the name of the smart folder; the path holds
    strings, so the second test never succeeds, the two copies are not
    examined, nothing is removed and both remain with their metadata. *)
Theorem dedupe_misses_category_folders :
  let w := Demo.worldOf Demo.idle Demo.storageWithCloneMeta Demo.copiesInCategoryFolder in
  let '(w', r) := removeDuplicatesFromSmartBookmarks Demo.offline w in
  map bm_path (List.filter (fun b => bool_decide (bm_id b ∈ [5%N; 6%N])) (getAllBookmarksFlat w))
    = [ ["Other bookmarks"; SMART_PARENT; "📁 Other"];
        ["Other bookmarks"; SMART_PARENT; "📁 Other"] ] ∧
  smartBookmarksTotal r = 0 ∧
  duplicatesFound r = 0 ∧ duplicatesRemoved r = 0 ∧
  effects w' = [] ∧
  map bm_id (getAllBookmarksFlat w') = [10%N; 5%N; 6%N] ∧
  bookmarkMeta (storage w') = bookmarkMeta Demo.storageWithCloneMeta.
Proof. vm_compute. repeat split; done. Qed.

(** ** Frame properties of the helpers *)

Lemma quiet_refl w : quiet w w.
Proof. split; [done|]. split; [lia|]. exists []. by rewrite app_nil_r. Qed.

Lemma quiet_trans w1 w2 w3 : quiet w1 w2 → quiet w2 w3 → quiet w1 w3.
Proof.
  intros (Ho1 & Hn1 & es1 & He1 & Hb1 & Hs1) (Ho2 & Hn2 & es2 & He2 & Hb2 & Hs2).
  split; [congruence|]. split; [lia|].
  exists (es1 ++ es2). rewrite He2, He1, <- app_assoc. split; [done|].
  unfold broadcastsOf, stateSavesOf in *. rewrite !omap_app, Hb1, Hb2, Hs1, Hs2. done.
Qed.

Lemma silent_refl w : silent w w.
Proof. split; [apply quiet_refl|done]. Qed.


Lemma silent_createNode (P : Platform) parent title url w :
  silent w (createNode P parent title url w).2.
Proof.
  unfold createNode. cbn. split; [|done]. split; [done|]. split; [cbn; lia|].
  eexists [_]. done.
Qed.

Lemma silent_getSmartParentId (P : Platform) w : silent w (getSmartParentId P w).2.
Proof.
  unfold getSmartParentId. destruct (List.find _ _); [apply silent_refl|].
  apply silent_createNode.
Qed.









Lemma quiet_removeBookmark (P : Platform) i w : quiet w (removeBookmark P i w).1.
Proof.
  unfold removeBookmark. destruct (removeError P i); [apply quiet_refl|].
  destruct (Tree.find i _); [|apply quiet_refl].
  split; [done|]. split; [cbn; lia|]. eexists [_]. done.
Qed.

Lemma quiet_saveMeta meta w : quiet w (saveMeta meta w).
Proof. split; [done|]. split; [cbn; lia|]. eexists [_]. done. Qed.

Lemma quiet_removeDuplicate (P : Platform) acc d :
  quiet acc.2 (removeDuplicate P acc d).2.
Proof.
  destruct acc as [n w]. unfold removeDuplicate.
  pose proof (quiet_removeBookmark P (bm_id d) w) as H.
  destruct (removeBookmark P (bm_id d) w) as [w1 [[]|msg]]; cbn in *; [|done].
  destruct (bookmarkMeta (storage w1) !! bm_id d); [|done].
  eapply quiet_trans; [exact H|apply quiet_saveMeta].
Qed.

Lemma quiet_removeDuplicates_fold (P : Platform) ds acc :
  quiet acc.2 (fold_left (removeDuplicate P) ds acc).2.
Proof.
  revert acc. induction ds as [|d ds IH]; intros acc; [apply quiet_refl|].
  cbn [fold_left]. eapply quiet_trans; [apply quiet_removeDuplicate|apply IH].
Qed.

Lemma quiet_removeDuplicatesFromSmartBookmarks (P : Platform) w :
  quiet w (removeDuplicatesFromSmartBookmarks P w).1.
Proof.
  unfold removeDuplicatesFromSmartBookmarks.
  pose proof (silent_getSmartParentId P w) as [H1 _].
  destruct (getSmartParentId P w) as [pid w1]. cbn in H1.
  destruct (findDuplicates P _) as [found ds].
  pose proof (quiet_removeDuplicates_fold P ds (0, w1)) as H2.
  destruct (fold_left _ ds (0, w1)) as [n w2]. cbn in *.
  by eapply quiet_trans.
Qed.

(** ** Cancellation *)

(** Once a turn finds the status changed, the remaining turns do nothing. *)
Lemma organizeLoop_stops (P : Platform) interference strategy weekAgo pre post :
  ∀ i st,
    status (interference (i + length pre)
              (orgState (l_world (organizeLoop P interference strategy weekAgo i pre st))))
      ≠ Running →
    ∃ o, organizeLoop P interference strategy weekAgo i (pre ++ post) st
         = let before := organizeLoop P interference strategy weekAgo i pre st in
           mkLoop (l_meta before) (l_cats before) (setOrgState o (l_world before)).
Proof.
  induction pre as [|b pre IH]; intros i st Hstop.
  - cbn [organizeLoop app length] in *. rewrite Nat.add_0_r in Hstop.
    destruct post as [|bm rest].
    + exists (orgState (l_world st)). by destruct st as [m c []].
    + cbn [organizeLoop]. cbn [l_world l_meta l_cats orgState setOrgState].
      rewrite decide_False by done. eauto.
  - cbn [app organizeLoop length] in *.
    cbn [l_world l_meta l_cats orgState setOrgState] in *.
    case_decide.
    + destruct (organizeItem P strategy weekAgo b _) as [st1 ex].
      apply IH. by rewrite Nat.add_succ_comm.
    + eexists. cbn [l_world l_meta l_cats setOrgState orgState organizationStats
                    aiMode storage bookmarks effects]. reflexivity.
Qed.

Lemma finishRun_log (P : Platform) strategy st :
  let o := orgState (l_world st) in
  ∃ es, effects (finishRun P strategy st).1 = effects (l_world st) ++ es ∧
    match saveMetaError P with
    | Some msg =>
        broadcastsOf es = [mkProgress Failed (done o) (total o) None (Some msg)]
    | None =>
        ∃ rest, es = ESaveMetaAndCategories (l_meta st) (l_cats st) :: rest ∧
          broadcastsOf rest
            = (if decide (strategy = "clone")
               then [mkProgress Running (total o) (total o)
                                (Some "Removing duplicates...") None]
               else []) ++ [mkProgress Done (total o) (total o) None None]
    end.
Proof.
  intros o. unfold finishRun. destruct (saveMetaError P) as [msg|].
  { cbn. eexists [_; _]. split; [by rewrite <- app_assoc|done]. }
  case_decide as Hs.
  - set (w1 := broadcastProgress _ (saveMetaAndCategories _ _ _)).
    destruct (quiet_removeDuplicatesFromSmartBookmarks P w1)
      as (Ho & _ & es & He & Hb & _).
    cbn. rewrite He, Ho. subst w1. cbn.
    eexists. split.
    { rewrite <- !app_assoc. cbn. reflexivity. }
    eexists. split; [reflexivity|].
    cbn. unfold broadcastsOf in *. rewrite omap_app, Hb. done.
  - cbn. eexists. split.
    { rewrite <- !app_assoc. cbn. reflexivity. }
    eexists. split; [reflexivity|]. done.
Qed.

(** C3, as the code has it.  The loop checks the status before each
    bookmark and stops at the first check that does not find 'running':
    the bookmarks that remain are not classified, placed or recorded, and
    no state save or progress broadcast is made for them - the metadata,
    the categories, the bookmark tree, the storage, the statistics and the
    log are those reached when the cancellation was observed.  What was
    committed before remains: the log only grows afterwards, and the write
    that follows the loop persists the metadata and categories gathered
    for the bookmarks processed before the cancellation. *)
Theorem cancellation_stops_the_loop (P : Platform)
    (interference : nat → OrgState → OrgState) (strategy : string) (weekAgo : Z)
    (i : nat) (pre post : list Bookmark) (st : LoopState) :
  let before := organizeLoop P interference strategy weekAgo i pre st in
  let after := organizeLoop P interference strategy weekAgo i (pre ++ post) st in
  status (interference (i + length pre) (orgState (l_world before))) ≠ Running →
  (l_meta after = l_meta before ∧ l_cats after = l_cats before ∧
   effects (l_world after) = effects (l_world before) ∧
   bookmarks (l_world after) = bookmarks (l_world before) ∧
   storage (l_world after) = storage (l_world before) ∧
   organizationStats (l_world after) = organizationStats (l_world before)) ∧
  ∃ es, effects (finishRun P strategy after).1 = effects (l_world before) ++ es ∧
        (saveMetaError P = None →
         ∃ rest, es = ESaveMetaAndCategories (l_meta before) (l_cats before) :: rest).
Proof.
  intros before after Hstop.
  destruct (organizeLoop_stops P interference strategy weekAgo pre post i st Hstop)
    as [o Ho].
  fold after in Ho. fold before in Ho. cbn zeta in Ho.
  assert (Hsame : l_meta after = l_meta before ∧ l_cats after = l_cats before ∧
                  effects (l_world after) = effects (l_world before) ∧
                  bookmarks (l_world after) = bookmarks (l_world before) ∧
                  storage (l_world after) = storage (l_world before) ∧
                  organizationStats (l_world after) = organizationStats (l_world before))
    by (rewrite Ho; done).
  split; [exact Hsame|].
  destruct Hsame as (Hm & Hc & He & _).
  destruct (finishRun_log P strategy after) as (es & Hes & Hrest).
  exists es. rewrite <- He. split; [exact Hes|].
  intros Hsave. rewrite Hsave in Hrest. destruct Hrest as (rest & -> & _).
  rewrite Hm, Hc. eauto.
Qed.

Lemma cancellation_stops_the_loop_witness :
  let st := (Demo.freshLoopStart Demo.offline).2 in
  let weekAgo := (Demo.freshLoopStart Demo.offline).1.2 in
  let before := organizeLoop Demo.offline Demo.resetBeforeSecond "clone" weekAgo 0
                  (firstn 1 Demo.freshToProcess) st in
  let after := organizeLoop Demo.offline Demo.resetBeforeSecond "clone" weekAgo 0
                 (firstn 1 Demo.freshToProcess ++ skipn 1 Demo.freshToProcess) st in
  map bm_id Demo.freshToProcess = [10%N; 11%N] ∧
  status (Demo.resetBeforeSecond 1 (orgState (l_world before))) = Idle ∧
  effects (l_world after) = effects (l_world before) ∧
  l_meta after = l_meta before.
Proof.
  intros st weekAgo before after.
  destruct (cancellation_stops_the_loop Demo.offline Demo.resetBeforeSecond "clone"
              weekAgo 0 (firstn 1 Demo.freshToProcess) (skipn 1 Demo.freshToProcess) st)
    as [(Hm & _ & He & _) _].
  { vm_compute. discriminate. }
  split; [reflexivity|]. split; [reflexivity|]. split; [exact He|exact Hm].
Defined.

(** C3, as stated, fails: after the cancellation is observed the run still
    writes.  Two bookmarks are to be processed and the job state is reset
    before the second turn; the loop stops there, and the run then persists
    the metadata and the categories, broadcasts twice, and saves a job
    state whose status is 'done'. *)
Lemma writes_follow_cancellation :
  let st := (Demo.freshLoopStart Demo.offline).2 in
  let weekAgo := (Demo.freshLoopStart Demo.offline).1.2 in
  let before := organizeLoop Demo.offline Demo.resetBeforeSecond "clone" weekAgo 0
                  (firstn 1 Demo.freshToProcess) st in
  let '(w', r) := startOrganize Demo.offline Demo.resetBeforeSecond Demo.freshWorld in
  status (Demo.resetBeforeSecond 1 (orgState (l_world before))) ≠ Running ∧
  firstn (length (effects (l_world before))) (effects w') = effects (l_world before) ∧
  map effectName (skipn (length (effects (l_world before))) (effects w'))
    = [ "set bookmarkMeta, userCategories"; "broadcastProgress"; "saveOrgState";
        "broadcastProgress"; "saveStats" ] ∧
  status (orgState w') = Done.
Proof. vm_compute. repeat split; (done || discriminate). Qed.

(** ** Progress *)












(** ** Normal form of slugs *)

Lemma lowerChar_idem c : Js.lowerChar (Js.lowerChar c) = Js.lowerChar c.
Proof. by destruct c as [[] [] [] [] [] [] [] []]. Qed.

Lemma is_space_lowerChar c : Ascii.is_space (Js.lowerChar c) = Ascii.is_space c.
Proof. by destruct c as [[] [] [] [] [] [] [] []]. Qed.

Lemma toLowerCase_idem s : Js.toLowerCase (Js.toLowerCase s) = Js.toLowerCase s.
Proof. induction s as [|c s IH]; [done|]. cbn. by rewrite lowerChar_idem, IH. Qed.

Lemma toLowerCase_empty s : Js.toLowerCase s = EmptyString ↔ s = EmptyString.
Proof. by destruct s. Qed.

Lemma trimStart_lower s :
  Js.trimStart (Js.toLowerCase s) = Js.toLowerCase (Js.trimStart s).
Proof.
  induction s as [|c s IH]; [done|]. cbn.
  rewrite is_space_lowerChar. by destruct (Ascii.is_space c).
Qed.

Lemma trimEnd_lower s :
  Js.trimEnd (Js.toLowerCase s) = Js.toLowerCase (Js.trimEnd s).
Proof.
  induction s as [|c s IH]; [done|]. cbn. rewrite IH, is_space_lowerChar.
  destruct (Js.trimEnd s); cbn; [|done]. by destruct (Ascii.is_space c).
Qed.

Lemma trim_lower s : Js.trim (Js.toLowerCase s) = Js.toLowerCase (Js.trim s).
Proof. unfold Js.trim. by rewrite trimStart_lower, trimEnd_lower. Qed.

Lemma trimEnd_cons c r :
  Js.trimEnd (String c r)
  = match Js.trimEnd r with
    | EmptyString => if Ascii.is_space c then EmptyString else String c EmptyString
    | String d r' => String c (String d r')
    end.
Proof. reflexivity. Qed.

Lemma trimEnd_idem s : Js.trimEnd (Js.trimEnd s) = Js.trimEnd s.
Proof.
  induction s as [|c s IH]; [done|]. rewrite trimEnd_cons.
  destruct (Js.trimEnd s) as [|d r] eqn:Hr.
  - destruct (Ascii.is_space c) eqn:Hc; [done|]. rewrite trimEnd_cons. cbn. by rewrite Hc.
  - rewrite trimEnd_cons, IH. done.
Qed.

Lemma trimStart_head s :
  Js.trimStart s = EmptyString ∨
  ∃ c r, Js.trimStart s = String c r ∧ Ascii.is_space c = false.
Proof.
  induction s as [|c s IH]; [by left|]. cbn.
  destruct (Ascii.is_space c) eqn:Hc; [done|]. right. eauto.
Qed.

Lemma trimEnd_head c r :
  Ascii.is_space c = false → ∃ r', Js.trimEnd (String c r) = String c r'.
Proof. intros Hc. cbn. rewrite Hc. destruct (Js.trimEnd r); eauto. Qed.

Lemma trim_idem s : Js.trim (Js.trim s) = Js.trim s.
Proof.
  unfold Js.trim. destruct (trimStart_head s) as [->|(c & r & -> & Hc)]; [done|].
  destruct (trimEnd_head c r Hc) as [r' Hr]. rewrite Hr.
  cbn [Js.trimStart]. rewrite Hc, <- Hr. apply trimEnd_idem.
Qed.



(** A slug that is lower case and trimmed already is written back as it
    is. *)
Lemma normalizeSlug_fixed s :
  s ≠ EmptyString → Js.toLowerCase s = s → Js.trim s = s → normalizeSlug s = s.
Proof.
  intros Hne Hl Ht. unfold normalizeSlug. rewrite Ht.
  destruct s; [done|]. by rewrite Hl, Ht.
Qed.

(** ** Manual records through a run *)





Section ManualRecord.

Context (P : Platform) (j : BookmarkId) (m0 : BookmarkMeta) (p : string).
Hypothesis manual_m0 : manual m0 = true.
Hypothesis primary_m0 : primary m0 = Some p.
Hypothesis p_nonempty : p ≠ EmptyString.



End ManualRecord.








(** ** Taxonomy reconciliation *)























(* ================================================================== *)
(** * Further properties of the code *)
(* ================================================================== *)

(** Membership in a list that is written out. *)
Ltac in_list := repeat first [by left | right].

(** ** Steps that write to the bookmark tree only *)










Lemma foldersOnly_refl w : foldersOnly w w.
Proof. repeat split. exists []. by rewrite app_nil_r. Qed.


Lemma foldersOnly_createFolder (P : Platform) parent title w :
  foldersOnly w (createNode P parent title None w).2.
Proof. unfold createNode. cbn. repeat split. by eexists [_]. Qed.


Lemma foldersOnly_getSmartParentId (P : Platform) w :
  foldersOnly w (getSmartParentId P w).2.
Proof.
  unfold getSmartParentId. destruct (List.find _ _); [apply foldersOnly_refl|].
  apply foldersOnly_createFolder.
Qed.

Lemma foldersOnly_getOrCreateChildFolder (P : Platform) parentId name w :
  foldersOnly w (getOrCreateChildFolder P parentId name w).2.
Proof.
  unfold getOrCreateChildFolder. destruct (List.find _ _); [apply foldersOnly_refl|].
  apply foldersOnly_createFolder.
Qed.


(** ** Category definitions *)




(** ** The classification tables and the stages of the classifier *)

Lemma mapToGeneral_fixed cat : mapToGeneral (mapToGeneral cat) = mapToGeneral cat.
Proof.
  destruct (assocGet cat GENERAL_CATEGORY_MAP) as [g|] eqn:Hg.
  - apply assocGet_Some_In in Hg. unfold GENERAL_CATEGORY_MAP in Hg.
    repeat (apply elem_of_cons in Hg as [Hg|Hg]; [by injection Hg as -> ->|]).
    by apply elem_of_nil in Hg.
  - unfold mapToGeneral at 2. rewrite Hg. unfold mapToGeneral. by rewrite Hg.
Qed.


Lemma hostAndPath_eq (P : Platform) url :
  tryCatch
    (u <-- newURL P url ;;
     Normal (stripWww (Js.toLowerCase (hostname u)),
             Js.toLowerCase (pathname u +:+ search u)))
    (fun _ => Normal (EmptyString, EmptyString))
  = Normal (hostAndPath P url).
Proof. unfold hostAndPath. by destruct (newURL P url). Qed.

(** The stages of the classifier after the manual override, by the host and
    the path prepared from the url. *)
Lemma classifier_stages (P : Platform) id title url w :
  manualOverride id (bookmarkMeta (storage w)) = None →
  ∃ desc,
    (categorizeBookmarkDetailed P id title url w).2 =
      match assocGet (hostAndPath P url).1 DOMAIN_CATEGORY_MAP with
      | Some d => Normal (mkResult (mapToGeneral d) desc "domain")
      | None =>
          match pathHint (hostAndPath P url).2 with
          | Some c => Normal (mkResult (mapToGeneral c) desc "path")
          | None =>
              let html := match fetch P url with
                          | FetchResponse _ body => Js.slice0 150000 body
                          | _ => EmptyString
                          end in
              let heuristics :=
                Normal (localHeuristics (textBagFromHtml P html)
                          (extractMetaDesc P html) desc) in
              if Js.truthy (openai_api_key (storage w))
              then tryCatch
                     (openaiStep P (Js.orEmpty (openai_api_key (storage w))) url
                        (hostAndPath P url).1
                        (Js.orElse (Js.orElse (extractTitle P html) title)
                                   (hostAndPath P url).1)
                        (map fst (userCategories (storage w))) html
                        (extractMetaDesc P html))
                     (fun _ => heuristics)
              else heuristics
          end
      end.
Proof.
  intros Hm. unfold categorizeBookmarkDetailed. cbn [snd].
  change (storage (AIService_init w)) with (storage w). rewrite Hm.
  rewrite hostAndPath_eq. cbn [cbind].
  destruct (hostAndPath P url) as [host path]. cbn [fst snd].
  rewrite fetchPageContent_outcome. cbn [cbind].
  set (html := match fetch P url with FetchResponse _ body => _ | _ => _ end).
  set (summary := Js.slice0 240 _).
  destruct (assocGet host DOMAIN_CATEGORY_MAP) as [d|].
  { by exists (Js.orElse (extractMetaDesc P html) summary). }
  destruct (pathHint path) as [c|].
  { by exists (Js.orElse (extractMetaDesc P html) summary). }
  by exists summary.
Qed.

Lemma localHeuristics_source bag metaDesc summary :
  (res_source (localHeuristics bag metaDesc summary) = "local" ∨
   res_source (localHeuristics bag metaDesc summary) = "default") ∧
  mapToGeneral (res_category (localHeuristics bag metaDesc summary))
    = res_category (localHeuristics bag metaDesc summary).
Proof.
  unfold localHeuristics. destruct (pickBest _) as [c s].
  destruct (0 <? s)%nat; cbn [res_source res_category].
  - split; [by left|apply mapToGeneral_fixed].
  - split; [by right|reflexivity].
Qed.

(** X2.  The classifier always answers with one of its six sources, and
    what it answers is a general category unless the answer is the manual
    override: [mapToGeneral] leaves the category unchanged.  A manual
    answer is the stored primary category of a record marked manual. *)
Theorem classifier_answers_general_category (P : Platform)
    (id : option BookmarkId) (title url : string) (w : World) :
  ∃ r, (categorizeBookmarkDetailed P id title url w).2 = Normal r ∧
    res_source r ∈ ["manual"; "domain"; "path"; "openai"; "local"; "default"] ∧
    match decide (res_source r = "manual") with
    | left _ =>
        ∃ i m, id = Some i ∧ bookmarkMeta (storage w) !! i = Some m ∧
               manual m = true ∧ primary m = Some (res_category r)
    | right _ => mapToGeneral (res_category r) = res_category r
    end.
Proof.
  destruct (manualOverride id (bookmarkMeta (storage w))) as [r|] eqn:Hm.
  { exists r. split.
    { unfold categorizeBookmarkDetailed. cbn [snd].
      change (storage (AIService_init w)) with (storage w). by rewrite Hm. }
    apply manualOverride_Some in Hm as (i & m & p & -> & Hi & Hman & Hp & _ & ->).
    cbn [res_source res_category]. split; [in_list|].
    rewrite decide_True by done. by exists i, m. }
  destruct (classifier_stages P id title url w Hm) as [desc ->].
  destruct (assocGet _ DOMAIN_CATEGORY_MAP) as [d|].
  { eexists. split; [done|]. cbn [res_source res_category].
    split; [in_list|]. rewrite decide_False by done. apply mapToGeneral_fixed. }
  destruct (pathHint _) as [c|].
  { eexists. split; [done|]. cbn [res_source res_category].
    split; [in_list|]. rewrite decide_False by done. apply mapToGeneral_fixed. }
  cbn zeta.
  set (lh := localHeuristics _ _ _).
  assert (Hlh : res_source lh ∈ ["manual"; "domain"; "path"; "openai"; "local"; "default"] ∧
                match decide (res_source lh = "manual") with
                | left _ =>
                    ∃ i m, id = Some i ∧ bookmarkMeta (storage w) !! i = Some m ∧
                           manual m = true ∧ primary m = Some (res_category lh)
                | right _ => mapToGeneral (res_category lh) = res_category lh
                end).
  { destruct (localHeuristics_source (textBagFromHtml P
       match fetch P url with FetchResponse _ body => Js.slice0 150000 body | _ => EmptyString end)
       (extractMetaDesc P
       match fetch P url with FetchResponse _ body => Js.slice0 150000 body | _ => EmptyString end)
       desc) as [Hs Hg]. fold lh in Hs, Hg.
    destruct Hs as [Hs|Hs]; rewrite Hs; (split; [in_list|]);
      by rewrite decide_False by done. }
  destruct (Js.truthy (openai_api_key (storage w))); [|by exists lh].
  unfold openaiStep. destruct (chat P _) as [|c d]; cbn [tryCatch]; [by exists lh|].
  eexists. split; [done|]. cbn [res_source res_category].
  split; [in_list|]. rewrite decide_False by done. apply mapToGeneral_fixed.
Qed.

(** X3.  A known domain decides.  When no manual override applies and the
    host of the url (lower case, without a leading [www.]) is in the domain
    table, the answer is the general category of the table entry with
    source 'domain', whatever the page content, the path, the API key and
    the chat endpoint. *)
Theorem known_domain_decides (P : Platform) (id : option BookmarkId)
    (title url : string) (w : World) (d : string) :
  manualOverride id (bookmarkMeta (storage w)) = None →
  assocGet (hostAndPath P url).1 DOMAIN_CATEGORY_MAP = Some d →
  ∃ r, (categorizeBookmarkDetailed P id title url w).2 = Normal r ∧
       res_category r = mapToGeneral d ∧ res_source r = "domain".
Proof.
  intros Hm Hd. destruct (classifier_stages P id title url w Hm) as [desc ->].
  rewrite Hd. by eexists.
Qed.

Lemma known_domain_decides_witness :
  manualOverride (Some 10%N) (bookmarkMeta (storage Sample.keyedWorld)) = None ∧
  hostAndPath Sample.platform "https://www.GitHub.com/rocq-prover/rocq"
    = ("github.com", "/rocq-prover/rocq") ∧
  ∃ r, (categorizeBookmarkDetailed Sample.platform (Some 10%N) "Rocq"
          "https://www.GitHub.com/rocq-prover/rocq" Sample.keyedWorld).2 = Normal r ∧
       res_category r = "developer/programming" ∧ res_source r = "domain".
Proof.
  split; [reflexivity|]. split; [reflexivity|].
  apply (known_domain_decides Sample.platform (Some 10%N) "Rocq"
           "https://www.GitHub.com/rocq-prover/rocq" Sample.keyedWorld "programming");
    reflexivity.
Defined.



(** ** URL normalisation, continued *)


(** X5.  The normal form of a URL is in lower case, whether the URL parses
    or not: scheme, host, path and query are all compared without regard to
    letter case. *)
Theorem normalizeUrl_is_lower_case (P : Platform) (url : string) :
  Js.toLowerCase (normalizeUrl P url) = normalizeUrl P url.
Proof.
  unfold normalizeUrl. destruct (URL_parse P url).
  - apply toLowerCase_idem.
  - by rewrite trim_lower, toLowerCase_idem.
Qed.






Lemma replaceWwwPrefix_plain_http s :
  Js.startsWith "www." s = false →
  replaceWwwPrefix ("http://" +:+ s) = "http://" +:+ s.
Proof.
  intros H. unfold replaceWwwPrefix.
  change (Js.startsWith "http://www." ("http://" +:+ s)) with (Js.startsWith "www." s).
  change (Js.startsWith "https://www." ("http://" +:+ s)) with false.
  by rewrite H.
Qed.

(** The normal forms of [http://X/p] and [https://X/p] for a host [X] that
    does not begin with [www.]: each keeps its scheme. *)
Lemma normalizeUrl_plain (P : Platform) s1 s2 X prt p params h :
  URL_parse P s1 = Some (mkURL "http:" "" "" X prt (String "/" p) params h) →
  URL_parse P s2 = Some (mkURL "https:" "" "" X prt (String "/" p) params h) →
  Js.startsWith "www." X = false →
  ∃ R, normalizeUrl P s1 = "http://" +:+ R ∧ normalizeUrl P s2 = "https://" +:+ R.
Proof.
  intros H1 H2 HX. unfold normalizeUrl. rewrite H1, H2.
  unfold deleteTrackingParams. cbn [protocol username password hostname port pathname
                                     searchParams hash].
  rewrite !URL_toString_plain. unfold search. cbn [searchParams].
  set (R := _ +:+ String "/" p +:+ _ +:+ h).
  assert (HR : ∃ c r, R = String c r ∧ c ≠ "w"%char ∧ c ≠ "."%char).
  { subst R. destruct prt as [|a q].
    - rewrite app_nil_l, app_cons. eexists _, _. split; [done|]. split; discriminate.
    - rewrite !app_cons. eexists _, _. split; [done|]. split; discriminate. }
  destruct HR as (c & r & HR & Hw & Hd).
  assert (Hne : X +:+ R ≠ EmptyString).
  { rewrite HR. destruct X; rewrite ?app_cons, ?app_nil_l; discriminate. }
  change ("http:" +:+ "//" +:+ X +:+ R) with ("http://" +:+ (X +:+ R)).
  change ("https:" +:+ "//" +:+ X +:+ R) with ("https://" +:+ (X +:+ R)).
  rewrite (stripTrailingSlash_app "http://" (X +:+ R)),
          (stripTrailingSlash_app "https://" (X +:+ R)) by done.
  assert (Hs : Js.startsWith "www." (stripTrailingSlash (X +:+ R)) = false).
  { destruct (Js.startsWith "www." (stripTrailingSlash (X +:+ R))) eqn:Hs; [|done].
    apply startsWith_strip in Hs. rewrite HR, startsWith_www_app in Hs by done.
    congruence. }
  rewrite replaceWwwPrefix_plain_http, replaceWwwPrefix_https by done.
  exists (Js.toLowerCase (stripTrailingSlash (X +:+ R))).
  by rewrite !toLowerCase_app.
Qed.

(** X8.  Without [www.] the scheme counts.  For a host [X] that does not
    begin with [www.], [http://X/p] and [https://X/p] have different normal
    forms, so the duplicate reconciler never takes an http bookmark and its
    https counterpart for duplicates of each other: two such bookmarks give
    no duplicate and nothing to remove. *)
Theorem plain_http_and_https_differ (P : Platform) (b1 b2 : Bookmark)
    (X prt p h : string) (params : list (string * string)) :
  URL_parse P (bm_url b1)
    = Some (mkURL "http:" "" "" X prt (String "/" p) params h) →
  URL_parse P (bm_url b2)
    = Some (mkURL "https:" "" "" X prt (String "/" p) params h) →
  Js.startsWith "www." X = false →
  normalizeUrl P (bm_url b1) ≠ normalizeUrl P (bm_url b2) ∧
  findDuplicates P [b1; b2] = (0, []).
Proof.
  intros H1 H2 HX.
  destruct (normalizeUrl_plain P _ _ _ _ _ _ _ H1 H2 HX) as (R & Hn1 & Hn2).
  split; [rewrite Hn1, Hn2; discriminate|].
  assert (Hk : exactKey P b1 ≠ exactKey P b2).
  { unfold exactKey. rewrite Hn1, Hn2. discriminate. }
  assert (Hk' : urlOnlyKey P b1 ≠ urlOnlyKey P b2).
  { unfold urlOnlyKey. rewrite Hn1, Hn2. discriminate. }
  unfold findDuplicates, groupBy. cbn [fold_left].
  destruct (bm_url b1) as [|a1 u1] eqn:E1; destruct (bm_url b2) as [|a2 u2] eqn:E2;
    cbn [groupPush]; rewrite ?decide_False by done; reflexivity.
Qed.

Lemma plain_http_and_https_differ_witness :
  let b1 := mkBookmark 7%N "Page" "http://example.com/page" (Some 3%N) (Some 100%Z) [] in
  let b2 := mkBookmark 8%N "Page" "https://example.com/page" (Some 3%N) (Some 200%Z) [] in
  normalizeUrl Sample.platform (bm_url b1) = "http://example.com/page" ∧
  normalizeUrl Sample.platform (bm_url b2) = "https://example.com/page" ∧
  findDuplicates Sample.platform [b1; b2] = (0, []).
Proof.
  intros b1 b2.
  destruct (plain_http_and_https_differ Sample.platform b1 b2
              "example.com" "" "page" "" []) as [_ Hf]; try reflexivity.
  split; [reflexivity|]. split; [reflexivity|exact Hf].
Defined.

(** ** The job state across a restart of the service worker *)

Lemma mergeOrgState_initial o : mergeOrgState initialOrgState o = o.
Proof. destruct o as [s t d sa lt pr [c|] [e|]]; reflexivity. Qed.

(** X9.  The job state survives a restart of the service worker, also the
    status 'running'.  After [saveOrgState], a start of the worker followed
    by [loadState] gives back the same job state; so a job that was running
    when the worker stopped is still marked running afterwards, although
    nothing continues it, and [startOrganize] is rejected with 'Already
    organizing'. *)
Theorem running_job_survives_restart (P : Platform)
    (interference : nat → OrgState → OrgState) (w : World) :
  status (orgState w) = Running →
  let w' := loadState (startWorker (saveOrgState w)) in
  orgState w' = orgState w ∧
  startOrganize P interference w'
    = (w', mkStartResult false (Some "Already organizing") None None).
Proof.
  intros Hrun w'.
  assert (Ho : orgState w' = orgState w).
  { subst w'. unfold loadState, startWorker, saveOrgState.
    cbn [storage emit setStorage org_state organization_stats].
    destruct (organization_stats (storage w));
      cbn [storage setStats orgState org_state setOrgState];
      apply mergeOrgState_initial. }
  split; [done|].
  unfold startOrganize. rewrite Ho, decide_True by done. done.
Qed.

Lemma running_job_survives_restart_witness :
  let w' := loadState (startWorker (saveOrgState Demo.runningWorld)) in
  orgState w' = orgState Demo.runningWorld ∧
  status (orgState w') = Running ∧
  startOrganize Demo.offline (fun _ o => o) w'
    = (w', mkStartResult false (Some "Already organizing") None None).
Proof.
  intros w'.
  destruct (running_job_survives_restart Demo.offline (fun _ o => o) Demo.runningWorld)
    as [Ho Hs]; [reflexivity|].
  split; [exact Ho|]. split; [reflexivity|exact Hs].
Defined.

(** ** A start with nothing to do *)

(** X10.  When no job is running and no bookmark is eligible (every
    http(s) bookmark is a direct child of the smart folder, or there is
    none), [startOrganize] answers [{ success: true, message: 'No bookmarks
    need organizing' }] without touching the job state, the statistics or
    the storage and without any progress message: a status 'done' or
    'failed' of an earlier run stays as it is.  The only thing it may write
    is the smart folder. *)
Theorem startOrganize_nothing_to_do (P : Platform)
    (interference : nat → OrgState → OrgState) (w : World) :
  status (orgState w) ≠ Running →
  eligible (getSmartParentId P w).1 (getAllBookmarksFlat w) = [] →
  let '(w', r) := startOrganize P interference w in
  r = mkStartResult true None (Some "No bookmarks need organizing") None ∧
  foldersOnly w w' ∧
  broadcastsOf (effects w') = broadcastsOf (effects w).
Proof.
  intros Hrun Hel. unfold startOrganize. rewrite decide_False by done.
  change (getAllBookmarksFlat (AIService_init w)) with (getAllBookmarksFlat w).
  pose proof (foldersOnly_getSmartParentId P (AIService_init w)) as Hs.
  pose proof (silent_getSmartParentId P (AIService_init w)) as Hq.
  assert (Hid : (getSmartParentId P (AIService_init w)).1 = (getSmartParentId P w).1).
  { unfold getSmartParentId. cbn [bookmarks AIService_init setAiMode].
    by destruct (List.find _ _). }
  destruct (getSmartParentId P (AIService_init w)) as [smartParentId w1].
  cbn [fst snd] in *. rewrite Hid, Hel.
  split; [done|]. split; [exact Hs|].
  destruct Hq as [(_ & _ & es & He & Hb & _) _]. rewrite He.
  unfold broadcastsOf in *. rewrite omap_app, Hb. apply app_nil_r.
Qed.

Lemma startOrganize_nothing_to_do_witness :
  let w := Demo.worldOf (mkOrgState Failed 3 1 (Some 500%Z) (Some "Page") "local" None
                           (Some "QUOTA_BYTES quota exceeded"))
                        Demo.emptyStorage Demo.copiesInSmartFolder in
  let '(w', r) := startOrganize Demo.offline (fun _ o => o) w in
  r = mkStartResult true None (Some "No bookmarks need organizing") None ∧
  status (orgState w') = Failed ∧ effects w' = [].
Proof.
  intros w.
  pose proof (startOrganize_nothing_to_do Demo.offline (fun _ o => o) w) as H.
  destruct (startOrganize Demo.offline (fun _ o => o) w) as [w' r] eqn:E.
  destruct H as (Hr & _ & _); [discriminate|reflexivity|].
  split; [exact Hr|]. vm_compute in E. injection E as <- <-. split; reflexivity.
Defined.

(** ** The text classifier of the service *)

Lemma categorizeWithProvider_answer key late s :
  (categorizeWithProvider key late s).2 = None ∧
  ai_customCategories (categorizeWithProvider key late s).1 = ai_customCategories s.
Proof.
  unfold categorizeWithProvider, waitRateLimit.
  destruct (Js.truthy (key s)); [|done]. cbn [fst snd]. split; [done|].
  by destruct (_ <? _)%Z.
Qed.

(** X11.  Every provider of [categorizeText] is a stub: whatever the mode
    and whatever API keys are set, the answer is the one of the local
    classifier with the custom categories of the service. *)
Theorem categorizeText_answers_locally (late : Z) (text : string) (s : AIService) :
  (categorizeText late text s).2
    = LocalClassifier_categorize (ai_customCategories s) text.
Proof.
  unfold categorizeText.
  repeat case_decide; [done|..].
  1-4: match goal with
       | |- context [categorizeWithProvider ?k ?l ?s0] =>
           destruct (categorizeWithProvider_answer k l s0) as [Ha Hc];
           destruct (categorizeWithProvider k l s0) as [s' a];
           cbn [fst snd] in *; subst a; unfold labelOr, localAnswer; cbn [Js.truthy];
           by rewrite Hc
       end.
  cbn [fold_left Js.truthy].
  destruct (categorizeWithProvider_answer ai_openaiApiKey late s) as [Ha1 Hc1].
  destruct (categorizeWithProvider ai_openaiApiKey late s) as [s1 a1].
  cbn [fst snd] in *. subst a1. cbn [Js.truthy].
  destruct (categorizeWithProvider_answer ai_geminiApiKey late s1) as [Ha2 Hc2].
  destruct (categorizeWithProvider ai_geminiApiKey late s1) as [s2 a2].
  cbn [fst snd] in *. subst a2. cbn [Js.truthy].
  destruct (categorizeWithProvider_answer ai_claudeApiKey late s2) as [Ha3 Hc3].
  destruct (categorizeWithProvider ai_claudeApiKey late s2) as [s3 a3].
  cbn [fst snd] in *. subst a3. cbn [Js.truthy].
  destruct (categorizeWithProvider_answer ai_uclassifyApiKey late s3) as [Ha4 Hc4].
  destruct (categorizeWithProvider ai_uclassifyApiKey late s3) as [s4 a4].
  cbn [fst snd] in *. subst a4.
  unfold labelOr, localAnswer. cbn [Js.truthy]. congruence.
Qed.

(** X12.  The rate limit.  After [waitRateLimit] the time of the last
    request is the current time, the clock has not gone back, and the new
    request is at least [rateLimitDelay] after the one before it (timers
    never fire early). *)
Theorem waitRateLimit_spaces_requests (late : Z) (s : AIService) :
  (0 ≤ late)%Z →
  let s' := waitRateLimit late s in
  ai_lastRequest s' = ai_clock s' ∧
  (ai_clock s ≤ ai_clock s')%Z ∧
  (ai_lastRequest s + ai_rateLimitDelay s ≤ ai_lastRequest s')%Z.
Proof.
  intros Hlate. unfold waitRateLimit.
  destruct (Z.ltb_spec (ai_clock s - ai_lastRequest s) (ai_rateLimitDelay s));
    cbn [setLastRequest setClock ai_lastRequest ai_clock ai_rateLimitDelay];
    repeat split; lia.
Qed.

Lemma waitRateLimit_spaces_requests_witness :
  let s := mkAIService "api_openai" (Some "sk-test") None None None 2000 10000 [] 10500 in
  ai_lastRequest (waitRateLimit 3 s) = 12003%Z ∧
  (ai_lastRequest s + ai_rateLimitDelay s ≤ ai_lastRequest (waitRateLimit 3 s))%Z.
Proof.
  intros s.
  destruct (waitRateLimit_spaces_requests 3 s) as (_ & _ & H); [lia|].
  split; [reflexivity|exact H].
Defined.

(** ** Manual edits *)



(** X14.  [updateBookmarkMeta] needs an id and a category: without an id,
    or with a category that is absent or empty, the response is the error
    'Missing id or category' and nothing is read or written. *)
Theorem updateBookmarkMeta_needs_id_and_category (P : Platform)
    (id : option BookmarkId) (category : option string) (tagsArg : TagsArg)
    (w : World) :
  id = None ∨ Js.truthy category = false →
  updateBookmarkMeta P id category tagsArg w
    = (w, mkResponse false (Some "Missing id or category")).
Proof.
  intros [->|Hc]; [done|]. unfold updateBookmarkMeta.
  destruct id; [|done]. by destruct category as [[|c r]|].
Qed.

Lemma updateBookmarkMeta_needs_id_and_category_witness :
  updateBookmarkMeta Demo.offline (Some 10%N) (Some "") TagsAbsent Demo.freshWorld
    = (Demo.freshWorld, mkResponse false (Some "Missing id or category")).
Proof.
  apply (updateBookmarkMeta_needs_id_and_category Demo.offline (Some 10%N) (Some "")
           TagsAbsent Demo.freshWorld).
  right. reflexivity.
Defined.

(** ** Tags *)

(** X15.  The tags parsed from a comma-separated string are trimmed and
    none of them is empty: every tag is its own trim, and blank pieces
    (as between two commas) are dropped. *)
Theorem parseTags_trimmed_nonempty (s : string) :
  Forall (fun t => t ≠ EmptyString ∧ Js.trim t = t) (parseTags s).
Proof.
  unfold parseTags. apply Forall_forall. intros t Ht.
  apply list_elem_of_In, filter_In in Ht as [Hin Htr].
  apply list_elem_of_In, list_elem_of_fmap in Hin as (p & -> & _).
  split; [|apply trim_idem].
  intros E. rewrite E in Htr. discriminate.
Qed.


(** ** Adding the current page *)

Lemma AIService_init_idem w : AIService_init (AIService_init w) = AIService_init w.
Proof. reflexivity. Qed.






(** ** The dashboard data *)









(** ** A taxonomy update that deletes nothing *)




(** ** The two passes of the duplicate reconciler *)

Lemma insertByDate_length x l : length (insertByDate x l) = S (length l).
Proof.
  induction l as [|y r IH]; [done|]. cbn [insertByDate].
  destruct (dateKey x <=? dateKey y)%Z; cbn [length]; [done|]. by rewrite IH.
Qed.

Lemma sortByDate_length l : length (sortByDate l) = length l.
Proof.
  induction l as [|x r IH]; [done|]. cbn [sortByDate].
  by rewrite insertByDate_length, IH.
Qed.

Lemma insertByDate_perm x l : insertByDate x l ≡ₚ x :: l.
Proof.
  induction l as [|y r IH]; [done|]. cbn [insertByDate].
  destruct (dateKey x <=? dateKey y)%Z; [done|].
  rewrite IH. apply Permutation_swap.
Qed.

Lemma sortByDate_perm l : sortByDate l ≡ₚ l.
Proof.
  induction l as [|x r IH]; [done|]. cbn [sortByDate].
  by rewrite insertByDate_perm, IH.
Qed.

Lemma sortByDate_short l : length l ≤ 1 → tail (sortByDate l) = [].
Proof. destruct l as [|x [|y r]]; cbn; (done || lia). Qed.

Lemma exactPass_fold (groups : list (string * list Bookmark)) n0 R0 :
  fold_left
    (fun acc g =>
       let '(found, toRemove) := acc in
       let bookmarks := g.2 in
       if (1 <? length bookmarks)%nat
       then (found + (length bookmarks - 1), toRemove ++ tail (sortByDate bookmarks))
       else acc)
    groups (n0, R0)
  = (n0 + length (flat_map (fun g => tail (sortByDate g.2)) groups),
     R0 ++ flat_map (fun g => tail (sortByDate g.2)) groups).
Proof.
  revert n0 R0. induction groups as [|g groups IH]; intros n0 R0.
  { cbn. by rewrite Nat.add_0_r, app_nil_r. }
  cbn [fold_left flat_map]. destruct (Nat.ltb_spec 1 (length g.2)) as [Hlt|Hge].
  - rewrite IH, length_app, <- app_assoc. f_equal.
    rewrite length_tl, sortByDate_length. lia.
  - rewrite IH, (sortByDate_short g.2) by lia. done.
Qed.

Lemma pushUnlessListed_fold_length xs R :
  length (fold_left pushUnlessListed xs R) ≤ length R + length xs.
Proof.
  revert R. induction xs as [|x xs IH]; intros R; cbn [fold_left length]; [lia|].
  etrans; [apply IH|]. unfold pushUnlessListed.
  destruct (existsb _ R); rewrite ?length_app; cbn [length]; lia.
Qed.

Lemma titleGroups_fold (tgs : list (string * list Bookmark)) n0 R0 :
  fold_left
    (fun acc tg =>
       let '(found, toRemove) := acc in
       let titleBookmarks := tg.2 in
       if (1 <? length titleBookmarks)%nat
       then (found + (length titleBookmarks - 1),
             fold_left pushUnlessListed (tail (sortByDate titleBookmarks)) toRemove)
       else acc)
    tgs (n0, R0)
  = (n0 + length (flat_map (fun T => tail (sortByDate T.2)) tgs),
     fold_left pushUnlessListed (flat_map (fun T => tail (sortByDate T.2)) tgs) R0).
Proof.
  revert n0 R0. induction tgs as [|g tgs IH]; intros n0 R0.
  { cbn. by rewrite Nat.add_0_r. }
  cbn [fold_left flat_map]. destruct (Nat.ltb_spec 1 (length g.2)) as [Hlt|Hge].
  - rewrite IH, length_app, fold_left_app. f_equal.
    rewrite length_tl, sortByDate_length. lia.
  - rewrite IH, (sortByDate_short g.2) by lia. done.
Qed.

Lemma groupBy_short keyOf (U : list Bookmark) :
  length U ≤ 1 → flat_map (fun T => tail (sortByDate T.2)) (groupBy keyOf U) = [].
Proof.
  destruct U as [|x [|y r]]; cbn [length]; [done| |lia]. intros _.
  unfold groupBy. cbn [fold_left]. by destruct (bm_url x).
Qed.

Lemma urlOnlyPass_fold (groups : list (string * list Bookmark)) n0 R0 :
  urlOnlyPass groups (n0, R0)
  = (n0 + length (flat_map (fun U => flat_map (fun T => tail (sortByDate T.2))
                                              (groupBy titleKey U.2)) groups),
     fold_left pushUnlessListed
       (flat_map (fun U => flat_map (fun T => tail (sortByDate T.2))
                                    (groupBy titleKey U.2)) groups) R0).
Proof.
  unfold urlOnlyPass. revert n0 R0. induction groups as [|g groups IH]; intros n0 R0.
  { cbn. by rewrite Nat.add_0_r. }
  cbn [fold_left flat_map]. destruct (Nat.ltb_spec 1 (length g.2)) as [Hlt|Hge].
  - rewrite titleGroups_fold, IH, length_app, fold_left_app. f_equal. lia.
  - rewrite IH, (groupBy_short titleKey g.2) by lia. done.
Qed.

(** What the two passes compute: the first lists all but the oldest of
    every group of one exact key; the second goes through all but the
    oldest of every group of one URL and title, adds those that are not
    listed yet, and counts all of them. *)
Lemma findDuplicates_eq (P : Platform) l :
  findDuplicates P l
  = (length (flat_map (fun g => tail (sortByDate g.2)) (groupBy (exactKey P) l))
     + length (urlOnlyCandidates P l),
     fold_left pushUnlessListed (urlOnlyCandidates P l)
       (flat_map (fun g => tail (sortByDate g.2)) (groupBy (exactKey P) l))).
Proof.
  unfold findDuplicates, exactPass. rewrite exactPass_fold, urlOnlyPass_fold. done.
Qed.

(** ** Groups *)

Lemma assocGet_NoDup {A} k (v : A) m :
  NoDup (map fst m) → (k, v) ∈ m → assocGet k m = Some v.
Proof.
  induction m as [|[k' v'] m IH]; intros Hnd Hin; [by apply elem_of_nil in Hin|].
  cbn [map fst] in Hnd. apply NoDup_cons in Hnd as [Hk Hnd].
  rewrite assocGet_cons. apply elem_of_cons in Hin as [Heq|Hin].
  - injection Heq as -> ->. by rewrite decide_True.
  - rewrite decide_False; [by apply IH|].
    intros ->. apply Hk. apply list_elem_of_fmap. by exists (k, v).
Qed.

Lemma groupPush_groupOf key bm m k :
  groupOf k (groupPush key bm m)
  = if decide (key = k) then groupOf k m ++ [bm] else groupOf k m.
Proof.
  unfold groupOf. induction m as [|[k0 l] m IH]; cbn [groupPush].
  { rewrite assocGet_cons. by case_decide. }
  destruct (decide (k0 = key)) as [->|Hne]; rewrite !assocGet_cons.
  - by case_decide.
  - destruct (decide (k0 = k)) as [->|Hne'].
    + by rewrite decide_False by done.
    + apply IH.
Qed.

Lemma groupPush_keys key bm m :
  map fst (groupPush key bm m)
  = if decide (key ∈ map fst m) then map fst m else map fst m ++ [key].
Proof.
  induction m as [|[k0 l] m IH]; cbn [groupPush map fst].
  { by rewrite decide_False by (by intros ?%elem_of_nil). }
  destruct (decide (k0 = key)) as [->|Hne]; cbn [map fst].
  - by rewrite decide_True by left.
  - rewrite IH. destruct (decide (key ∈ map fst m)) as [Hin|Hnin].
    + by rewrite decide_True by (by right).
    + rewrite decide_False; [done|]. intros [E|E]%elem_of_cons; congruence.
Qed.

Lemma groupPush_NoDup key bm m :
  NoDup (map fst m) → NoDup (map fst (groupPush key bm m)).
Proof.
  intros H. rewrite groupPush_keys. case_decide; [done|].
  apply NoDup_app. split; [done|]. split; [|apply NoDup_singleton].
  intros x Hx ->%list_elem_of_singleton. done.
Qed.

Lemma groupBy_fold keyOf bms m :
  let m' := fold_left (fun m bm =>
                         match bm_url bm with
                         | EmptyString => m
                         | _ => groupPush (keyOf bm) bm m
                         end) bms m in
  (NoDup (map fst m) → NoDup (map fst m')) ∧
  ∀ k, groupOf k m'
       = groupOf k m ++ List.filter (fun b => hasUrl b && bool_decide (keyOf b = k)) bms.
Proof.
  revert m. induction bms as [|b bms IH]; intros m; cbn [fold_left List.filter].
  { split; [done|]. intros k. by rewrite app_nil_r. }
  destruct (IH (match bm_url b with
                | EmptyString => m
                | _ => groupPush (keyOf b) b m
                end)) as [IH1 IH2].
  split.
  - intros Hnd. apply IH1. destruct (bm_url b); [done|by apply groupPush_NoDup].
  - intros k. rewrite IH2. unfold hasUrl at 2. destruct (bm_url b) as [|a u] eqn:Hu.
    + done.
    + cbn [Js.truthy andb]. rewrite groupPush_groupOf.
      destruct (decide (keyOf b = k)) as [->|Hne].
      * rewrite bool_decide_eq_true_2 by done. by rewrite <- app_assoc.
      * by rewrite bool_decide_eq_false_2 by done.
Qed.

Lemma groupBy_NoDup keyOf bms : NoDup (map fst (groupBy keyOf bms)).
Proof. apply (groupBy_fold keyOf bms []). constructor. Qed.

Lemma groupBy_groupOf keyOf bms k :
  groupOf k (groupBy keyOf bms)
  = List.filter (fun b => hasUrl b && bool_decide (keyOf b = k)) bms.
Proof. apply (groupBy_fold keyOf bms []). Qed.

Lemma groupBy_elem keyOf bms k g :
  (k, g) ∈ groupBy keyOf bms →
  g = List.filter (fun b => hasUrl b && bool_decide (keyOf b = k)) bms.
Proof.
  intros Hin. rewrite <- groupBy_groupOf. unfold groupOf.
  by rewrite (assocGet_NoDup k g _ (groupBy_NoDup keyOf bms) Hin).
Qed.


Lemma filter_filter_and {A} (p q : A → bool) l :
  List.filter p (List.filter q l) = List.filter (fun x => q x && p x) l.
Proof.
  induction l as [|x l IH]; [done|]. cbn [List.filter].
  destruct (q x); cbn [List.filter andb]; [|done]. by rewrite IH.
Qed.


(** ** The oldest of a group *)





(** ** What the reconciler lists for removal *)

Lemma in_tail_sorted x g : x ∈ tail (sortByDate g) → x ∈ g.
Proof.
  intros H. rewrite <- (sortByDate_perm g).
  destruct (sortByDate g) as [|h t]; [by apply elem_of_nil in H|]. by right.
Qed.

Lemma elem_of_flat_map {A B} (f : A → list B) l y :
  y ∈ flat_map f l ↔ ∃ x, x ∈ l ∧ y ∈ f x.
Proof.
  rewrite list_elem_of_In, in_flat_map. split; intros (x & H1 & H2); exists x.
  - by rewrite !list_elem_of_In.
  - by rewrite <- !list_elem_of_In.
Qed.

Lemma elem_of_filter' {A} (p : A → bool) l x :
  x ∈ List.filter p l ↔ x ∈ l ∧ p x = true.
Proof. by rewrite list_elem_of_In, filter_In, <- list_elem_of_In. Qed.

Lemma exact_listed (P : Platform) l x :
  x ∈ flat_map (fun g => tail (sortByDate g.2)) (groupBy (exactKey P) l) →
  x ∈ l ∧ hasUrl x = true ∧ x ∈ tail (sortByDate (exactOf P x l)).
Proof.
  intros ([k g] & Hg & Hx)%elem_of_flat_map. cbn [snd] in Hx.
  pose proof (groupBy_elem _ _ _ _ Hg) as ->.
  pose proof (in_tail_sorted _ _ Hx) as Hin.
  apply elem_of_filter' in Hin as [Hin [Hu Hk%bool_decide_eq_true_1]%andb_true_iff].
  split; [done|]. split; [done|]. unfold exactOf. by rewrite Hk.
Qed.

Lemma copiesOf_eq (P : Platform) b l :
  List.filter (fun x => hasUrl x && bool_decide (titleKey x = titleKey b))
    (List.filter (fun x => hasUrl x && bool_decide (urlOnlyKey P x = urlOnlyKey P b)) l)
  = copiesOf P b l.
Proof.
  rewrite filter_filter_and. unfold copiesOf, sameCopy. apply filter_ext. intros x.
  by destruct (hasUrl x), (bool_decide (urlOnlyKey P x = urlOnlyKey P b)).
Qed.

Lemma candidate_listed (P : Platform) l x :
  x ∈ urlOnlyCandidates P l →
  x ∈ l ∧ hasUrl x = true ∧ x ∈ tail (sortByDate (copiesOf P x l)).
Proof.
  intros ([u U] & HU & Hx)%elem_of_flat_map. cbn [snd] in Hx.
  apply elem_of_flat_map in Hx as ([t T] & HT & Hx). cbn [snd] in Hx.
  pose proof (groupBy_elem _ _ _ _ HU) as ->.
  pose proof (groupBy_elem _ _ _ _ HT) as ->.
  pose proof (in_tail_sorted _ _ Hx) as Hin.
  apply elem_of_filter' in Hin as [Hin [_ Ht%bool_decide_eq_true_1]%andb_true_iff].
  apply elem_of_filter' in Hin as [Hin [Hu Hk%bool_decide_eq_true_1]%andb_true_iff].
  split; [done|]. split; [done|]. rewrite <- copiesOf_eq. by rewrite Ht, Hk.
Qed.


Lemma pushUnlessListed_fold xs R :
  (∀ y, y ∈ R → y ∈ fold_left pushUnlessListed xs R) ∧
  (∀ x, x ∈ xs → ∃ d, d ∈ fold_left pushUnlessListed xs R ∧ bm_id d = bm_id x) ∧
  (∀ y, y ∈ fold_left pushUnlessListed xs R → y ∈ R ∨ y ∈ xs).
Proof.
  revert R. induction xs as [|x xs IH]; intros R; cbn [fold_left].
  { split; [done|]. split; [by intros x ?%elem_of_nil|]. by left. }
  destruct (IH (pushUnlessListed R x)) as (IH1 & IH2 & IH3).
  assert (Hsub : ∀ y, y ∈ R → y ∈ pushUnlessListed R x).
  { intros y Hy. unfold pushUnlessListed. destruct (existsb _ R); [done|].
    apply elem_of_app. by left. }
  assert (Hx : ∃ d, d ∈ pushUnlessListed R x ∧ bm_id d = bm_id x).
  { unfold pushUnlessListed. destruct (existsb _ R) eqn:He.
    - apply existsb_exists in He as (d & Hd & Hid%bool_decide_eq_true_1).
      exists d. by rewrite list_elem_of_In.
    - exists x. split; [|done]. apply elem_of_app. right. left. }
  split; [|split].
  - intros y Hy. by apply IH1, Hsub.
  - intros y [->|Hy]%elem_of_cons; [|by apply IH2].
    destruct Hx as (d & Hd & Hid). exists d. split; [by apply IH1|done].
  - intros y Hy. destruct (IH3 y Hy) as [Hy'|Hy']; [|right; by right].
    unfold pushUnlessListed in Hy'. destruct (existsb _ R); [by left|].
    apply elem_of_app in Hy' as [Hy'|Hy']; [by left|].
    apply list_elem_of_singleton in Hy' as ->. right. left.
Qed.

(** Whatever is listed for removal was among the bookmarks examined and
    has a URL. *)
Lemma findDuplicates_listed (P : Platform) l x :
  x ∈ (findDuplicates P l).2 →
  x ∈ l ∧ hasUrl x = true ∧
  (x ∈ tail (sortByDate (exactOf P x l)) ∨ x ∈ tail (sortByDate (copiesOf P x l))).
Proof.
  rewrite findDuplicates_eq. cbn [snd]. intros Hx.
  apply pushUnlessListed_fold in Hx as [Hx|Hx].
  - apply exact_listed in Hx as (H1 & H2 & H3). auto.
  - apply candidate_listed in Hx as (H1 & H2 & H3). auto.
Qed.









(** X22.  The exact key is ambiguous.  It joins the normalized URL and the
    trimmed title with a bar, which may also occur in either.  Two
    bookmarks with different normalized URLs and the same exact key are
    taken for duplicates by the first pass: the later one is listed for
    removal (the second pass, which groups by URL, lists nothing). *)
Theorem exact_key_collision (P : Platform) (b1 b2 : Bookmark) :
  hasUrl b1 = true → hasUrl b2 = true →
  exactKey P b1 = exactKey P b2 →
  urlOnlyKey P b1 ≠ urlOnlyKey P b2 →
  findDuplicates P [b1; b2]
    = (1, [if (dateKey b1 <=? dateKey b2)%Z then b2 else b1]).
Proof.
  unfold hasUrl. intros Hu1 Hu2 Hk Hk'.
  unfold findDuplicates, groupBy. cbn [fold_left].
  destruct (bm_url b1) as [|a1 u1] eqn:E1; [done|].
  destruct (bm_url b2) as [|a2 u2] eqn:E2; [done|].
  cbn [groupPush]. rewrite Hk.
  rewrite (decide_True (P := exactKey P b2 = exactKey P b2)) by done.
  rewrite (decide_False (P := urlOnlyKey P b1 = urlOnlyKey P b2)) by done.
  cbn [app groupPush]. unfold exactPass, urlOnlyPass.
  cbn [fold_left snd length Nat.ltb Nat.leb sortByDate insertByDate].
  by destruct (dateKey b1 <=? dateKey b2)%Z.
Qed.

Lemma exact_key_collision_witness :
  let b1 := mkBookmark 7%N "c" "https://example.com/a|b" (Some 3%N) (Some 100%Z) [] in
  let b2 := mkBookmark 8%N "b|c" "https://example.com/a" (Some 3%N) (Some 200%Z) [] in
  exactKey Sample.platform b1 = "https://example.com/a|b|c" ∧
  exactKey Sample.platform b2 = "https://example.com/a|b|c" ∧
  normalizeUrl Sample.platform (bm_url b1) ≠ normalizeUrl Sample.platform (bm_url b2) ∧
  findDuplicates Sample.platform [b1; b2] = (1, [b2]).
Proof.
  intros b1 b2. split; [reflexivity|]. split; [reflexivity|]. split; [discriminate|].
  apply (exact_key_collision Sample.platform b1 b2); (reflexivity || discriminate).
Defined.

(** ** The removal loop of the reconciler *)

Lemma removalsOf_app es1 es2 : removalsOf (es1 ++ es2) = removalsOf es1 ++ removalsOf es2.
Proof. apply omap_app. Qed.

Lemma removeDuplicate_spec (P : Platform) n w d :
  ∃ es, effects (removeDuplicate P (n, w) d).2 = effects w ++ es ∧
        (removeDuplicate P (n, w) d).1 = n + length (removalsOf es) ∧
        forallb isDedupeWrite es = true ∧
        (removalsOf es = [] ∨ removalsOf es = [bm_id d]) ∧
        orgState (removeDuplicate P (n, w) d).2 = orgState w ∧
        organizationStats (removeDuplicate P (n, w) d).2 = organizationStats w ∧
        (∀ j, j ∉ removalsOf es →
              bookmarkMeta (storage (removeDuplicate P (n, w) d).2) !! j
              = bookmarkMeta (storage w) !! j).
Proof.
  unfold removeDuplicate, removeBookmark.
  destruct (removeError P (bm_id d)).
  { exists []. rewrite app_nil_r. cbn. repeat split; (lia || auto). }
  destruct (Tree.find (bm_id d) _).
  2:{ exists []. rewrite app_nil_r. cbn. repeat split; (lia || auto). }
  cbn [fst snd]. destruct (bookmarkMeta _ !! bm_id d); cbn.
  - eexists [_; _]. rewrite <- app_assoc. cbn. repeat split; try (cbn; lia); auto.
    intros j Hj. apply lookup_delete_ne. intros E. apply Hj. rewrite <- E. left.
  - eexists [_]. cbn. repeat split; try (cbn; lia); auto.
Qed.

Lemma removeDuplicates_fold_spec (P : Platform) ds n w :
  let r := fold_left (removeDuplicate P) ds (n, w) in
  ∃ es, effects r.2 = effects w ++ es ∧
        r.1 = n + length (removalsOf es) ∧
        forallb isDedupeWrite es = true ∧
        length (removalsOf es) ≤ length ds ∧
        (∀ i, i ∈ removalsOf es → i ∈ map bm_id ds) ∧
        orgState r.2 = orgState w ∧
        organizationStats r.2 = organizationStats w ∧
        (∀ j, j ∉ removalsOf es →
              bookmarkMeta (storage r.2) !! j = bookmarkMeta (storage w) !! j).
Proof.
  revert n w. induction ds as [|d ds IH]; intros n w; cbn [fold_left].
  { exists []. rewrite app_nil_r. cbn. repeat split; try lia.
    by intros i ?%elem_of_nil. }
  destruct (removeDuplicate_spec P n w d)
    as (es1 & He1 & Hn1 & Hf1 & Hr1 & Ho1 & Hs1 & Hm1).
  destruct (removeDuplicate P (n, w) d) as [n1 w1]. cbn [fst snd] in *.
  destruct (IH n1 w1) as (es2 & He2 & Hn2 & Hf2 & Hl2 & Hin2 & Ho2 & Hs2 & Hm2).
  subst n1.
  cbv zeta. exists (es1 ++ es2). rewrite He2, He1, <- app_assoc, Hn2.
  rewrite removalsOf_app, length_app, forallb_app, Hf1, Hf2.
  repeat split; try lia; try congruence.
  - cbn [length]. destruct Hr1 as [->| ->]; cbn [length]; lia.
  - intros i [Hi|Hi]%elem_of_app; cbn [map].
    + destruct Hr1 as [E|E]; rewrite E in Hi; [by apply elem_of_nil in Hi|].
      apply list_elem_of_singleton in Hi as ->. left.
    + right. by apply Hin2.
  - intros j Hj. rewrite Hm2, Hm1; [done| |].
    + intros Hin. apply Hj, elem_of_app. by left.
    + intros Hin. apply Hj, elem_of_app. by right.
Qed.

Lemma isInSmart_false bm : isInSmart bm = false.
Proof.
  unfold isInSmart. induction (bm_path bm) as [|p ps IH]; [done|].
  cbn [existsb]. rewrite IH. done.
Qed.

(** X23.  The counts of the reconciler.  The pass always answers
    [success: true]; [duplicatesRemoved] is the number of bookmarks that it
    removed, and it never exceeds [duplicatesFound]; the two totals add up
    to the number of http(s) bookmarks.  The job state and the statistics
    are not touched. *)
Theorem dedupe_counts (P : Platform) (w : World) :
  let '(smartId, w1) := getSmartParentId P w in
  let '(w', r) := removeDuplicatesFromSmartBookmarks P w in
  dd_success r = true ∧
  duplicatesRemoved r ≤ duplicatesFound r ∧
  smartBookmarksTotal r + originalBookmarksTotal r = length (getAllBookmarksFlat w1) ∧
  orgState w' = orgState w ∧ organizationStats w' = organizationStats w ∧
  ∃ es, effects w' = effects w1 ++ es ∧
        forallb isDedupeWrite es = true ∧
        duplicatesRemoved r = length (removalsOf es).
Proof.
  unfold removeDuplicatesFromSmartBookmarks.
  pose proof (foldersOnly_getSmartParentId P w) as (Ho1 & Hs1 & _).
  destruct (getSmartParentId P w) as [smartId w1]. cbn [snd] in Ho1, Hs1.
  set (smart := List.filter (inSmartList smartId) (getAllBookmarksFlat w1)).
  pose proof (findDuplicates_eq P smart) as Hfd.
  destruct (findDuplicates P smart) as [found ds].
  injection Hfd as Hfound Hds.
  destruct (removeDuplicates_fold_spec P ds 0 w1)
    as (es & He & Hn & Hf & Hl & Hin & Ho & Hs & _).
  destruct (fold_left (removeDuplicate P) ds (0, w1)) as [n w2]. cbn [fst snd] in *.
  cbn [dd_success duplicatesRemoved duplicatesFound smartBookmarksTotal
         originalBookmarksTotal].
  split; [done|]. split; [|split; [|split; [congruence|split; [congruence|]]]].
  - etrans; [|etrans]; [| |].
    + rewrite Hn. exact Hl.
    + rewrite Hds. apply pushUnlessListed_fold_length.
    + lia.
  - subst smart. generalize (getAllBookmarksFlat w1). intros l.
    induction l as [|x l IH]; [done|]. cbn [List.filter length].
    destruct (inSmartList smartId x); cbn [negb length]; lia.
  - exists es. rewrite Hn. done.
Qed.

(** X24.  The reconciler spares what is outside the smart folder.  Every
    bookmark that the pass removes is an http(s) bookmark held directly by
    the smart folder, and a record of the metadata is only deleted together
    with the bookmark of its id: the records of all other ids are as
    before. *)
Theorem dedupe_spares_the_originals (P : Platform) (w : World) :
  let '(smartId, w1) := getSmartParentId P w in
  let '(w', r) := removeDuplicatesFromSmartBookmarks P w in
  ∃ es, effects w' = effects w1 ++ es ∧
    (∀ i, i ∈ removalsOf es →
          ∃ b, b ∈ getAllBookmarksFlat w1 ∧ bm_id b = i ∧
               bm_parentId b = Some smartId) ∧
    (∀ j, j ∉ removalsOf es →
          bookmarkMeta (storage w') !! j = bookmarkMeta (storage w) !! j).
Proof.
  unfold removeDuplicatesFromSmartBookmarks.
  pose proof (foldersOnly_getSmartParentId P w) as (_ & _ & Hst & _).
  destruct (getSmartParentId P w) as [smartId w1]. cbn [snd] in Hst.
  set (smart := List.filter (inSmartList smartId) (getAllBookmarksFlat w1)).
  pose proof (findDuplicates_listed P smart) as Hlisted.
  destruct (findDuplicates P smart) as [found ds]. cbn [snd] in Hlisted.
  destruct (removeDuplicates_fold_spec P ds 0 w1)
    as (es & He & _ & _ & _ & Hin & _ & _ & Hm).
  destruct (fold_left (removeDuplicate P) ds (0, w1)) as [n w2]. cbn [fst snd] in *.
  exists es. split; [done|]. split.
  - intros i Hi. apply Hin, list_elem_of_fmap in Hi as (b & -> & Hb).
    apply Hlisted in Hb as (Hb & _).
    apply elem_of_filter' in Hb as [Hb Hs]. exists b. split; [done|]. split; [done|].
    unfold inSmartList in Hs. rewrite isInSmart_false in Hs. cbn [orb] in Hs.
    by apply bool_decide_eq_true_1 in Hs.
  - intros j Hj. rewrite Hm by done. by rewrite Hst.
Qed.

(** ** What a run records *)












(** ** The bookmark tree *)

Lemma Node_ind' (Q : Node → Prop) :
  (∀ i t u d cs, Forall Q cs → Q (mkNode i t u d cs)) → ∀ n, Q n.
Proof.
  intros Hc. fix IH 1. intros [i t u d cs]. apply Hc.
  induction cs as [|c cs IHcs]; constructor; [apply IH | exact IHcs].
Qed.

Lemma forest_ind (Q : list Node → Prop) :
  Q [] →
  (∀ i t u d cs l, Q cs → Q l → Q (mkNode i t u d cs :: l)) →
  ∀ l, Q l.
Proof.
  intros H0 Hc.
  assert (Hn : ∀ n l, Q l → Q (n :: l)).
  { induction n as [i t u d cs IH] using Node_ind'. intros l Hl.
    apply Hc; [|exact Hl]. induction IH as [|c cs Hc' _ IHcs]; [exact H0|].
    by apply Hc'. }
  induction l as [|n l IH]; [exact H0 | by apply Hn].
Qed.

Lemma nodesOf_eq par i t u d cs :
  Tree.nodesOf par (mkNode i t u d cs)
  = (par, mkNode i t u d cs) :: flat_map (Tree.nodesOf (Some i)) cs.
Proof. reflexivity. Qed.

Lemma insertUnder_eq p x j t u d cs :
  Tree.insertUnder p x (mkNode j t u d cs)
  = mkNode j t u d (map (Tree.insertUnder p x) cs ++ if decide (j = p) then [x] else []).
Proof.
  change (Tree.insertUnder p x (mkNode j t u d cs))
    with (if decide (j = p) then mkNode j t u d (map (Tree.insertUnder p x) cs ++ [x])
          else mkNode j t u d (map (Tree.insertUnder p x) cs)).
  case_decide; [done|]. by rewrite app_nil_r.
Qed.

(** The nodes of a forest, whatever the parent of its roots. *)
Definition nodesUnder (par : option BookmarkId) (l : list Node) : list Node :=
  map snd (flat_map (Tree.nodesOf par) l).

Lemma nodesUnder_cons par i t u d cs l :
  nodesUnder par (mkNode i t u d cs :: l)
  = mkNode i t u d cs :: nodesUnder (Some i) cs ++ nodesUnder par l.
Proof.
  unfold nodesUnder. cbn [flat_map]. rewrite nodesOf_eq, map_app. done.
Qed.

Lemma nodesUnder_leaf par i t u d : nodesUnder par [mkNode i t u d []] = [mkNode i t u d []].
Proof. reflexivity. Qed.

Lemma nodesUnder_nil par : nodesUnder par [] = [].
Proof. reflexivity. Qed.

Lemma nodesUnder_app par l1 l2 :
  nodesUnder par (l1 ++ l2) = nodesUnder par l1 ++ nodesUnder par l2.
Proof. unfold nodesUnder. by rewrite flat_map_app, map_app. Qed.

Lemma nodesUnder_par par par' l : nodesUnder par l = nodesUnder par' l.
Proof.
  revert par par'. induction l as [|i t u d cs l IHcs IHl] using forest_ind; intros par par'.
  - done.
  - rewrite !nodesUnder_cons. f_equal. f_equal. apply IHl.
Qed.

Section Insertion.

Context (p i : BookmarkId) (t : string) (u : option string) (d : option Z).

Local Abbreviation x := (mkNode i t u d []).
Local Abbreviation ins := (Tree.insertUnder p x).
Local Abbreviation hasId := (fun n : Node => bool_decide (node_id n = p)).

Lemma insertUnder_id n : node_id (ins n) = node_id n.
Proof. destruct n. by rewrite insertUnder_eq. Qed.

Lemma insertUnder_title n : node_title (ins n) = node_title n.
Proof. destruct n. by rewrite insertUnder_eq. Qed.

Lemma insertUnder_url n : node_url (ins n) = node_url n.
Proof. destruct n. by rewrite insertUnder_eq. Qed.

Lemma insertUnder_children n :
  node_children (ins n)
  = map ins (node_children n) ++ if decide (node_id n = p) then [x] else [].
Proof. destruct n. by rewrite insertUnder_eq. Qed.

Lemma grown_nodesUnder l : ∀ par b rest rest',
  grown p x (b || existsb hasId (nodesUnder par l)) rest rest' →
  grown p x b (nodesUnder par l ++ rest) (nodesUnder par (map ins l) ++ rest').
Proof.
  induction l as [|j t' u' d' cs l IHcs IHl] using forest_ind; intros par b rest rest' H.
  - cbn in *. by rewrite orb_false_r in H.
  - cbn [map]. rewrite insertUnder_eq, !nodesUnder_cons.
    rewrite <- (insertUnder_eq p x j t' u' d' cs).
    rewrite nodesUnder_cons in H. cbn [existsb node_id] in H.
    rewrite existsb_app in H.
    cbn [app]. apply grown_keep. rewrite nodesUnder_app, <- !app_assoc.
    apply IHcs. cbn [node_id]. destruct (decide (j = p)) as [Hj|Hj].
    + rewrite (bool_decide_eq_true_2 _ Hj) in H |- *.
      replace (b || true || _) with true by (by destruct b).
      replace (b || _) with true in H by (by destruct b).
      rewrite (nodesUnder_cons (Some j)). cbn [nodesUnder flat_map map app].
      apply grown_new. by apply IHl.
    + rewrite (bool_decide_eq_false_2 _ Hj) in H |- *.
      cbn [nodesUnder flat_map map app].
      apply IHl. cbn [orb] in H. rewrite orb_false_r. by rewrite <- orb_assoc.
Qed.

Lemma grown_insert l : grown p x false (nodesIn l) (nodesIn (Tree.insert p x l)).
Proof.
  pose proof (grown_nodesUnder l None false [] []) as H.
  rewrite !app_nil_r in H. apply H. constructor.
Qed.

Lemma grown_find_other (q : Node → bool) b L L' :
  (∀ n, q (ins n) = q n) → q x = false →
  grown p x b L L' → List.find q L' = ins <$> List.find q L.
Proof.
  intros Hq Hx. induction 1 as [b|b n l l' _ IH|l l' _ IH]; cbn [List.find].
  - done.
  - rewrite Hq. by destruct (q n).
  - by rewrite Hx.
Qed.

Lemma grown_find_first (q : Node → bool) L L' s :
  (∀ n, q (ins n) = q n) →
  grown p x false L L' →
  List.find (fun n => q n || hasId n) L = Some s → q s = true →
  List.find q L' = Some (ins s).
Proof.
  intros Hq H. remember false as b eqn:Hb.
  induction H as [b|b n l l' _ IH|l l' _ IH]; cbn [List.find]; intros Hf Hs.
  - done.
  - destruct (q n || bool_decide (node_id n = p)) eqn:E.
    + injection Hf as ->. by rewrite Hq, Hs.
    + apply orb_false_iff in E as [E1 E2]. rewrite Hq, E1.
      apply IH; [by rewrite Hb, E2|done|done].
  - done.
Qed.

Lemma grown_find_new (q : Node → bool) b L L' :
  (∀ n, q (ins n) = q n) →
  grown p x b L L' → List.find q L = None →
  List.find q L' = None ∨ List.find q L' = Some x.
Proof.
  intros Hq. induction 1 as [b|b n l l' _ IH|l l' _ IH]; cbn [List.find]; intros Hf.
  - by left.
  - rewrite Hq. destruct (q n); [done|]. by apply IH.
  - destruct (q x); [by right|]. by apply IH.
Qed.

Lemma insertUnder_absent l : ∀ par,
  p ∉ map node_id (nodesUnder par l) → map ins l = l.
Proof.
  induction l as [|j t' u' d' cs l IHcs IHl] using forest_ind; intros par H; [done|].
  rewrite nodesUnder_cons in H. cbn [map node_id] in H.
  rewrite map_app in H.
  apply not_elem_of_cons in H as [Hj H]. apply not_elem_of_app in H as [H1 H2].
  cbn [map]. rewrite insertUnder_eq, (IHcs _ H1), (IHl _ H2).
  rewrite decide_False by done. by rewrite app_nil_r.
Qed.

Lemma insertUnder_present l : ∀ par,
  p ∈ map node_id (nodesUnder par l) → x ∈ nodesUnder par (map ins l).
Proof.
  induction l as [|j t' u' d' cs l IHcs IHl] using forest_ind; intros par H.
  - by apply elem_of_nil in H.
  - rewrite nodesUnder_cons in H. cbn [map node_id] in H. rewrite map_app in H.
    cbn [map]. rewrite insertUnder_eq, nodesUnder_cons, nodesUnder_app.
    apply elem_of_cons. right. rewrite !elem_of_app.
    apply elem_of_cons in H as [<-|H].
    + left. right. rewrite decide_True by done. rewrite nodesUnder_cons. by left.
    + apply elem_of_app in H as [H|H]; [left; left; by apply IHcs | right; by apply IHl].
Qed.

Lemma insertUnder_ids l : ∀ par,
  NoDup (map node_id (nodesUnder par l)) →
  p ∈ map node_id (nodesUnder par l) →
  map node_id (nodesUnder par (map ins l)) ≡ₚ i :: map node_id (nodesUnder par l).
Proof.
  induction l as [|j t' u' d' cs l IHcs IHl] using forest_ind; intros par Hnd H.
  - by apply elem_of_nil in H.
  - rewrite nodesUnder_cons in Hnd, H. cbn [map node_id] in Hnd, H.
    rewrite map_app in Hnd, H.
    apply NoDup_cons in Hnd as [Hj Hnd]. apply NoDup_app in Hnd as (Hn1 & Hdis & Hn2).
    rewrite (nodesUnder_cons par j t' u' d' cs).
    cbn [map]. rewrite insertUnder_eq, nodesUnder_cons, nodesUnder_app.
    cbn [map node_id]. rewrite !map_app.
    apply elem_of_cons in H as [<-|H].
    + apply not_elem_of_app in Hj as [H1 H2].
      rewrite (insertUnder_absent _ _ H1), (insertUnder_absent _ _ H2).
      rewrite decide_True by done. rewrite nodesUnder_leaf. cbn [map node_id].
      rewrite <- app_assoc. cbn [app]. rewrite <- Permutation_middle. apply perm_swap.
    + assert (Hjp : j ≠ p) by (intros ->; by apply Hj).
      rewrite decide_False by done. rewrite nodesUnder_nil. cbn [map]. rewrite app_nil_r.
      apply elem_of_app in H as [H|H].
      * rewrite (insertUnder_absent l par) by (intros H'; by apply (Hdis p)).
        rewrite (IHcs _ Hn1 H). cbn [app]. apply perm_swap.
      * rewrite (insertUnder_absent cs (Some j)) by (intros H'; by apply (Hdis p)).
        rewrite (IHl _ Hn2 H). rewrite <- Permutation_middle. apply perm_swap.
Qed.

Lemma insert_present l : p ∈ idsOf l → x ∈ nodesIn (Tree.insert p x l).
Proof. apply insertUnder_present. Qed.

Lemma insert_ids l :
  NoDup (idsOf l) → p ∈ idsOf l → idsOf (Tree.insert p x l) ≡ₚ i :: idsOf l.
Proof. apply insertUnder_ids. Qed.

End Insertion.

Lemma find_map_snd {A} (q : Node → bool) (L : list (A * Node)) :
  snd <$> List.find (fun pn => q pn.2) L = List.find q (map snd L).
Proof.
  induction L as [|[a n] L IH]; [done|]. cbn. by destruct (q n).
Qed.

Lemma find_map_inv (q : Node → bool) (f : Node → Node) l :
  (∀ n, q (f n) = q n) → List.find q (map f l) = f <$> List.find q l.
Proof.
  intros Hq. induction l as [|n l IH]; [done|]. cbn. rewrite Hq. by destruct (q n).
Qed.

Lemma find_by_id p L :
  p ∈ map node_id L →
  ∃ s, List.find (fun n => bool_decide (node_id n = p)) L = Some s ∧ node_id s = p.
Proof.
  induction L as [|n L IH]; intros H; [by apply elem_of_nil in H|].
  cbn. case_bool_decide as E; [by exists n|].
  apply elem_of_cons in H as [H|H]; [done|]. by apply IH.
Qed.

Lemma find_first_id (q : Node → bool) L s :
  NoDup (map node_id L) → List.find q L = Some s →
  List.find (fun n => q n || bool_decide (node_id n = node_id s)) L = Some s.
Proof.
  induction L as [|n L IH]; intros Hnd Hf; [done|].
  cbn in Hnd, Hf |- *. apply NoDup_cons in Hnd as [Hn Hnd].
  destruct (q n); [done|]. cbn [orb]. case_bool_decide as E.
  - exfalso. apply Hn. rewrite E. apply list_elem_of_fmap. exists s. split; [done|].
    apply list_elem_of_In. by apply find_some in Hf as [? _].
  - by apply IH.
Qed.

Lemma find_app_l {A} (q : A → bool) l1 l2 a :
  List.find q l1 = Some a → List.find q (l1 ++ l2) = Some a.
Proof. induction l1 as [|b l1 IH]; [done|]. cbn. by destruct (q b). Qed.

Lemma find_app_r {A} (q : A → bool) l1 l2 :
  List.find q l1 = None → List.find q (l1 ++ l2) = List.find q l2.
Proof. induction l1 as [|b l1 IH]; [done|]. cbn. by destruct (q b). Qed.

Lemma getSmartParentId_eq P w :
  getSmartParentId P w
  = match smartFolder w with
    | Some folder => (node_id folder, w)
    | None => createNode P None SMART_PARENT None w
    end.
Proof. reflexivity. Qed.

Lemma getOrCreateChildFolder_eq P parentId name w :
  getOrCreateChildFolder P parentId name w
  = match List.find (isFolderNamed name) (Tree.getChildren parentId (roots (bookmarks w))) with
    | Some existing => (node_id existing, w)
    | None => createNode P (Some parentId) name None w
    end.
Proof. reflexivity. Qed.

Lemma find_eq i l :
  Tree.find i l = List.find (fun n => bool_decide (node_id n = i)) (nodesIn l).
Proof.
  pose proof (find_map_snd (fun n : Node => bool_decide (node_id n = i)) (Tree.allNodes l)) as H.
  exact H.
Qed.

Lemma isSmartFolder_insertUnder p x n :
  isSmartFolder (Tree.insertUnder p x n) = isSmartFolder n.
Proof. destruct n. rewrite insertUnder_eq. done. Qed.

Lemma isFolderNamed_insertUnder name p x n :
  isFolderNamed name (Tree.insertUnder p x n) = isFolderNamed name n.
Proof. destruct n. rewrite insertUnder_eq. done. Qed.

(** A creation under an existing folder keeps the store well formed. *)
Lemma storeOk_createNode P parent title url w :
  storeOk (bookmarks w) →
  default (defaultParent (bookmarks w)) parent ∈ idsOf (roots (bookmarks w)) →
  storeOk (bookmarks (createNode P parent title url w).2) ∧
  idsOf (roots (bookmarks (createNode P parent title url w).2))
  ≡ₚ nextId (bookmarks w) :: idsOf (roots (bookmarks w)).
Proof.
  intros (Hnd & Hlt & Hdef) Hp. cbn.
  pose proof (insert_ids _ (nextId (bookmarks w)) title url (Some (now P)) _ Hnd Hp) as Hperm.
  split; [|exact Hperm]. unfold storeOk. cbn. rewrite Hperm. split_and!.
  - apply NoDup_cons. split; [|done]. intros Hin.
    rewrite Forall_forall in Hlt. specialize (Hlt _ Hin). lia.
  - constructor; [lia|]. eapply Forall_impl; [exact Hlt|]. cbn. intros; lia.
  - by right.
Qed.

(** The smart folder, once created, is the one found. *)
Lemma smartFolder_created P w :
  storeOk (bookmarks w) → smartFolder w = None →
  smartFolder (createNode P None SMART_PARENT None w).2
  = Some (mkNode (nextId (bookmarks w)) SMART_PARENT None (Some (now P)) []).
Proof.
  intros (Hnd & Hlt & Hdef) Hnone. unfold smartFolder in *. cbn.
  set (x := mkNode _ _ _ _ _).
  destruct (grown_find_new (defaultParent (bookmarks w)) (nextId (bookmarks w))
              SMART_PARENT None (Some (now P)) isSmartFolder false _ _
              (isSmartFolder_insertUnder _ _)
              (grown_insert _ _ _ _ _ (roots (bookmarks w))) Hnone) as [H|H]; [|exact H].
  exfalso.
  pose proof (insert_present _ (nextId (bookmarks w)) SMART_PARENT None (Some (now P)) _ Hdef) as Hx.
  apply list_elem_of_In in Hx.
  by pose proof (find_none _ _ H _ Hx).
Qed.

(** A creation under the smart folder leaves it the one found. *)
Lemma smartFolder_kept P w s title url :
  storeOk (bookmarks w) → smartFolder w = Some s →
  ∃ s', smartFolder (createNode P (Some (node_id s)) title url w).2 = Some s'
        ∧ node_id s' = node_id s.
Proof.
  intros (Hnd & Hlt & Hdef) Hs. unfold smartFolder in *. cbn.
  exists (Tree.insertUnder (node_id s)
            (mkNode (nextId (bookmarks w)) title url (Some (now P)) []) s).
  split; [|apply insertUnder_id].
  apply (grown_find_first _ _ _ _ _ isSmartFolder (nodesIn (roots (bookmarks w)))).
  - apply isSmartFolder_insertUnder.
  - apply grown_insert.
  - by apply find_first_id.
  - by apply find_some in Hs as [_ ?].
Qed.

Lemma getChildren_insert pid i t u d l :
  pid ∈ idsOf l → i ∉ idsOf l →
  Tree.getChildren pid (Tree.insert pid (mkNode i t u d []) l)
  = map (Tree.insertUnder pid (mkNode i t u d [])) (Tree.getChildren pid l)
    ++ [mkNode i t u d []].
Proof.
  intros Hp Hi. unfold Tree.getChildren. rewrite !find_eq.
  rewrite (grown_find_other pid i t u d (fun n => bool_decide (node_id n = pid)) false
             (nodesIn l) _).
  - destruct (find_by_id pid _ Hp) as (s & -> & Hs). cbn [fmap option_fmap option_map].
    rewrite insertUnder_children. by rewrite decide_True by done.
  - intros n. by rewrite insertUnder_id.
  - cbn [node_id]. apply bool_decide_eq_false_2. intros ->. by apply Hi.
  - apply grown_insert.
Qed.

Lemma storeOk_fresh b : storeOk b → nextId b ∉ idsOf (roots b).
Proof.
  intros (_ & Hlt & _) Hin. rewrite Forall_forall in Hlt. specialize (Hlt _ Hin). lia.
Qed.

(** Asking again for a child folder finds the one just returned. *)
Lemma getOrCreateChildFolder_again P pid name w f w1 :
  storeOk (bookmarks w) → pid ∈ idsOf (roots (bookmarks w)) →
  getOrCreateChildFolder P pid name w = (f, w1) →
  getOrCreateChildFolder P pid name w1 = (f, w1).
Proof.
  intros Hok Hp. rewrite !getOrCreateChildFolder_eq.
  destruct (List.find _ _) as [e|] eqn:Hf.
  - intros [= <- <-]. by rewrite Hf.
  - intros [= <- <-]. cbn [createNode bookmarks setBookmarks emit roots default].
    rewrite getChildren_insert by (done || by apply storeOk_fresh).
    rewrite find_app_r.
    + cbn. by rewrite bool_decide_eq_true_2.
    + rewrite find_map_inv by apply isFolderNamed_insertUnder. by rewrite Hf.
Qed.

(** Asking again for the smart folder finds the one just returned. *)
Lemma getSmartParentId_again P w pid w1 :
  storeOk (bookmarks w) → getSmartParentId P w = (pid, w1) →
  storeOk (bookmarks w1) ∧ ∃ s, smartFolder w1 = Some s ∧ node_id s = pid.
Proof.
  intros Hok. rewrite getSmartParentId_eq.
  destruct (smartFolder w) as [s|] eqn:Hs.
  - intros [= <- <-]. split; [done|]. by exists s.
  - intros E.
    assert (Hw : w1 = (createNode P None SMART_PARENT None w).2) by (by rewrite E).
    assert (Hi : pid = nextId (bookmarks w)) by (by inversion E).
    subst w1. split.
    + apply storeOk_createNode; [done|]. by destruct Hok as (_ & _ & ?).
    + rewrite smartFolder_created by done. eexists. split; [done|]. by rewrite Hi.
Qed.

Lemma smartFolder_elem w s :
  smartFolder w = Some s → node_id s ∈ idsOf (roots (bookmarks w)).
Proof.
  intros H. apply find_some in H as [H _]. apply list_elem_of_fmap.
  exists s. split; [done|]. by apply list_elem_of_In.
Qed.

(** X26. In a well-formed bookmark store, asking for the folder of a
    category a second time gives the folder of the first time and changes
    nothing: no second smart folder and no second category folder is
    created. *)
Theorem ensureCategoryFolder_twice (P : Platform) categoryId w w1 folderId :
  storeOk (bookmarks w) →
  ensureCategoryFolder P categoryId w = (w1, Normal folderId) →
  ensureCategoryFolder P categoryId w1 = (w1, Normal folderId).
Proof.
  intros Hok. unfold ensureCategoryFolder.
  destruct (folderError P categoryId); [done|].
  pose proof (foldersOnly_getSmartParentId P w) as F1.
  destruct (getSmartParentId P w) as [pid wa] eqn:Hg. cbn [snd] in F1.
  destruct F1 as (_ & _ & Hst1 & _). rewrite <- Hst1.
  set (name := match assocGet categoryId (userCategories (storage wa)) with
               | Some cat => _ | None => _ end).
  pose proof (foldersOnly_getOrCreateChildFolder P pid name wa) as F2.
  destruct (getOrCreateChildFolder P pid name wa) as [fid wb] eqn:Hc. cbn [snd] in F2.
  destruct F2 as (_ & _ & Hst2 & _).
  intros [= <- <-].
  destruct (getSmartParentId_again P w pid wa Hok Hg) as (Hoka & s & Hs & Hid).
  pose proof (smartFolder_elem _ _ Hs) as Hin. rewrite Hid in Hin.
  assert (Hg2 : getSmartParentId P wb = (pid, wb)).
  { rewrite getSmartParentId_eq. revert Hc. rewrite getOrCreateChildFolder_eq.
    destruct (List.find _ _) as [e|].
    - intros [= <- <-]. by rewrite Hs, Hid.
    - intros E.
      assert (Hw : wb = (createNode P (Some pid) name None wa).2) by (by rewrite E).
      rewrite <- Hid in Hw.
      destruct (smartFolder_kept P wa s name None Hoka Hs) as (s' & Hs' & Hid').
      rewrite <- Hw in Hs'. rewrite Hs'. by rewrite Hid', Hid. }
  rewrite Hg2.
  replace (match assocGet categoryId (userCategories (storage wb)) with
           | Some cat => folderNameOf (cat_emoji cat) (cat_name cat)
           | None => folderNameOf EmptyString (friendlyName isHyphen categoryId)
           end) with name by (subst name; by rewrite Hst2).
  by rewrite (getOrCreateChildFolder_again P pid name wa fid wb Hoka Hin Hc).
Qed.

Lemma ensureCategoryFolder_twice_witness :
  let w1 := (ensureCategoryFolder Demo.offline "news" Demo.freshWorld).1 in
  length (effects w1) = 2%nat ∧
  ∃ folderId, ensureCategoryFolder Demo.offline "news" w1 = (w1, Normal folderId).
Proof.
  intros w1. split; [reflexivity|]. eexists.
  apply (ensureCategoryFolder_twice Demo.offline "news" Demo.freshWorld).
  - unfold storeOk. refine (bool_decide_unpack _ _). vm_compute. exact I.
  - vm_compute. reflexivity.
Defined.







Lemma walk_eq par path i t u d cs :
  walk par path (mkNode i t u d cs)
  = (match u with
     | Some url =>
         if Js.truthy u && isHttpUrl url
         then [mkBookmark i t url par d path]
         else []
     | None => []
     end) ++
    flat_map (walk (Some i) (match t with EmptyString => path | _ => path ++ [t] end)) cs.
Proof. reflexivity. Qed.

(** A new folder adds nothing to the flat list of bookmarks. *)
Lemma walk_insertUnder p i t d l : ∀ par path,
  flat_map (walk par path) (map (Tree.insertUnder p (mkNode i t None d [])) l)
  = flat_map (walk par path) l.
Proof.
  induction l as [|j t' u' d' cs l IHcs IHl] using forest_ind; intros par path; [done|].
  cbn [map flat_map]. rewrite insertUnder_eq, !walk_eq, IHl. f_equal. f_equal.
  rewrite flat_map_app, IHcs. case_decide; cbn; by rewrite app_nil_r.
Qed.

Lemma getAllBookmarksFlat_createFolder P parent title w :
  getAllBookmarksFlat (createNode P parent title None w).2 = getAllBookmarksFlat w.
Proof. apply walk_insertUnder. Qed.

Lemma getAllBookmarksFlat_getSmartParentId P w :
  getAllBookmarksFlat (getSmartParentId P w).2 = getAllBookmarksFlat w.
Proof.
  rewrite getSmartParentId_eq. destruct (smartFolder w); [done|].
  apply getAllBookmarksFlat_createFolder.
Qed.

Lemma getAllBookmarksFlat_getOrCreateChildFolder P parentId name w :
  getAllBookmarksFlat (getOrCreateChildFolder P parentId name w).2 = getAllBookmarksFlat w.
Proof.
  rewrite getOrCreateChildFolder_eq. destruct (List.find _ _); [done|].
  apply getAllBookmarksFlat_createFolder.
Qed.

(** X28. Ensuring folders never touches a bookmark: after
    [ensureCategoryFolder] and after [ensureUserCategoryFolders] the flat
    list of bookmarks (ids, titles, URLs, parents, dates and folder paths)
    is the one from before. *)
Theorem folders_leave_bookmarks (P : Platform) categoryId w :
  getAllBookmarksFlat (ensureCategoryFolder P categoryId w).1 = getAllBookmarksFlat w ∧
  getAllBookmarksFlat (ensureUserCategoryFolders P w) = getAllBookmarksFlat w.
Proof.
  split.
  - unfold ensureCategoryFolder. destruct (folderError P categoryId); [done|].
    pose proof (getAllBookmarksFlat_getSmartParentId P w) as H1.
    destruct (getSmartParentId P w) as [pid wa]. cbn [snd] in H1.
    set (name := match assocGet categoryId _ with Some cat => _ | None => _ end).
    pose proof (getAllBookmarksFlat_getOrCreateChildFolder P pid name wa) as H2.
    destruct (getOrCreateChildFolder P pid name wa) as [fid wb]. cbn [snd fst] in *.
    by rewrite H2.
  - unfold ensureUserCategoryFolders.
    destruct (userCategories (storage w)) as [|kc cats]; [done|].
    pose proof (getAllBookmarksFlat_getSmartParentId P w) as H1.
    destruct (getSmartParentId P w) as [pid wa]. cbn [snd] in H1. rewrite <- H1.
    set (existing := map node_title _). clearbody existing. clear H1.
    generalize (kc :: cats). intros l. revert wa.
    induction l as [|kc' l IH]; intros wa; [done|]. cbn [fold_left].
    case_bool_decide; [by apply IH|].
    rewrite IH. apply getAllBookmarksFlat_createFolder.
Qed.
